(** * chore-pref: roommate resolution and preference synchronisation

    A shallow embedding of the two front ends of the repository,

    - [src/App.js]   (the debounced variant, called [Debounced] below) and
    - [app/page.js]  (the focus-loss variant, called [OnBlur] below),

    together with the properties of the specification that are about them.

    React state is a record [Session]; an [async] handler is a finite
    program [Prog] whose nodes are the [await]ed remote requests, the
    [setState] calls and the console/alert outputs, in source order.  A
    handler reads the state through the closure of the render it was
    created in, so every handler takes that snapshot as an argument, while
    its [setState] calls act on the live state. *)

From Stdlib Require Import ZArith String Ascii List Bool Lia.
From stdpp Require Import base option list gmap strings fin_maps.
Import ListNotations.

Local Open Scope string_scope.
Local Open Scope list_scope.
Local Open Scope Z_scope.

(* ===================================================================== *)
(** ** JavaScript values used by the handlers *)
(* ===================================================================== *)

(** A string is a sequence of code units; the embedding covers the code
    units below 256.  [is_white] is the ECMAScript WhiteSpace and
    LineTerminator set restricted to that range: TAB, LF, VT, FF, CR, SP
    and NBSP. *)
Definition is_white (c : ascii) : bool :=
  let n := nat_of_ascii c in
  ((9 <=? n)%nat && (n <=? 13)%nat) || (n =? 32)%nat || (n =? 160)%nat.

Definition is_empty (s : string) : bool :=
  match s with EmptyString => true | String _ _ => false end.

Fixpoint trimStart (s : string) : string :=
  match s with
  | EmptyString => EmptyString
  | String c s' => if is_white c then trimStart s' else s
  end.

Fixpoint trimEnd (s : string) : string :=
  match s with
  | EmptyString => EmptyString
  | String c s' =>
      let t := trimEnd s' in
      if is_white c && is_empty t then EmptyString else String c t
  end.

(** [String.prototype.trim]. *)
Definition trim (s : string) : string := trimEnd (trimStart s).

(** The values a preference score takes at run time: a number (from
    [parseInt] or from the [preference_score] column), [NaN], or [null]
    (a NULL column).  [undefined], the value of a missing property, is the
    [None] of a map lookup. *)
Inductive score : Type :=
| Num (z : Z)
| NaN
| Null.

#[global] Instance score_eq_dec : EqDecision score.
Proof. solve_decision. Defined.

(** JavaScript truthiness of a score. *)
Definition truthy (v : score) : bool :=
  match v with
  | Num z => negb (z =? 0)
  | NaN => false
  | Null => false
  end.

(** [x || 1] for [x] the result of a property read. *)
Definition or_default (x : option score) : score :=
  match x with
  | Some v => if truthy v then v else Num 1
  | None => Num 1
  end.

(* ===================================================================== *)
(** ** Records of the three collections *)
(* ===================================================================== *)

Module Chore.
Record t : Type := mk { id : Z; name : string }.
End Chore.

Module Roommate.
Record t : Type := mk { id : Z; name : string }.
End Roommate.

(** A row of [preferences] as the submit handler builds it. *)
Module Pref.
Record t : Type := mk {
  roommate_id : Z;
  chore_id : Z;
  preference_score : score
}.
End Pref.

#[global] Instance chore_eq_dec : EqDecision Chore.t.
Proof. solve_decision. Defined.
#[global] Instance roommate_eq_dec : EqDecision Roommate.t.
Proof. solve_decision. Defined.
#[global] Instance pref_eq_dec : EqDecision Pref.t.
Proof. solve_decision. Defined.

(** The error object of a supabase-js response. *)
Record Error : Type := mkError { code : string; message : string }.

#[global] Instance error_eq_dec : EqDecision Error.
Proof. solve_decision. Defined.

(* ===================================================================== *)
(** ** React state *)
(* ===================================================================== *)

(** The five [useState] cells of [App].  [roommateId] is [null] ([None])
    or an id; [preferences] is the object used as a map from chore id to
    score. *)
Record Session : Type := mkSession {
  roommateName : string;
  roommateId : option Z;
  chores : list Chore.t;
  preferences : gmap Z score;
  loading : bool
}.

Definition setRoommateName (v : string) (s : Session) : Session :=
  mkSession v (roommateId s) (chores s) (preferences s) (loading s).
Definition setRoommateId (v : option Z) (s : Session) : Session :=
  mkSession (roommateName s) v (chores s) (preferences s) (loading s).
Definition setChores (v : list Chore.t) (s : Session) : Session :=
  mkSession (roommateName s) (roommateId s) v (preferences s) (loading s).
(** [setPreferences] takes an updater, as in [setPreferences((prev) => ...)];
    a plain value [v] is the constant updater. *)
Definition setPreferences (f : gmap Z score -> gmap Z score) (s : Session) : Session :=
  mkSession (roommateName s) (roommateId s) (chores s) (f (preferences s)) (loading s).
Definition setLoading (v : bool) (s : Session) : Session :=
  mkSession (roommateName s) (roommateId s) (chores s) (preferences s) v.

(** The initial state: [useState('')], [useState(null)], [useState([])],
    [useState({})], [useState(false)]. *)
Definition initialSession : Session := mkSession "" None [] ∅ false.

(* ===================================================================== *)
(** ** Remote requests and handler programs *)
(* ===================================================================== *)

(** The six query shapes the two files send through the supabase client. *)
Inductive Req : Type :=
| SelectChores
    (* from('chores').select('*') *)
| SelectRoommateSingle (name : string)
    (* from('roommates').select('*').eq('name', name).single() *)
| SelectRoommateIdMaybeSingle (name : string)
    (* from('roommates').select('id').eq('name', name).maybeSingle() *)
| InsertRoommate (name : string)
    (* from('roommates').insert([{ name }]).select().single() *)
| SelectPreferences (roommate_id : Z)
    (* from('preferences').select('chore_id, preference_score')
         .eq('roommate_id', roommate_id) *)
| UpsertPreferences (rows : list Pref.t) (onConflict : option string)
    (* from('preferences').upsert(rows, { onConflict }) *).

#[global] Instance req_eq_dec : EqDecision Req.
Proof. solve_decision. Defined.

(** What [data] holds when the request succeeds. *)
Definition Payload (rq : Req) : Type :=
  match rq with
  | SelectChores => list Chore.t
  | SelectRoommateSingle _ => Roommate.t
  | SelectRoommateIdMaybeSingle _ => option Z
  | InsertRoommate _ => Roommate.t
  | SelectPreferences _ => list (Z * score)
  | UpsertPreferences _ _ => unit
  end.

(** A supabase-js response [{ data, error }]: [error] is set and [data] is
    null, or [error] is null and [data] is the payload ([maybeSingle] alone
    may answer with both null: payload [None]).  A handler's
    [if (error) ... ] is the [Failed] branch; after [single()] without an
    error [data] is a row, so [if (roommateData)] is the [Data] branch. *)
Inductive Resp (T : Type) : Type :=
| Failed (error : Error)
| Data (data : T).
Arguments Failed {T} error.
Arguments Data {T} data.

Inductive Output : Type :=
| ConsoleError (label : string) (e : Error)
| Alert (text : string).

#[global] Instance output_eq_dec : EqDecision Output.
Proof. solve_decision. Defined.

(** The body of a handler up to its end: [Await] is [await supabase...],
    [SetState] a call of one of the state setters, [Print] a call of
    [console.error] or [alert]. *)
Inductive Prog (A : Type) : Type :=
| Ret (a : A)
| Await (rq : Req) (k : Resp (Payload rq) -> Prog A)
| SetState (u : Session -> Session) (k : Prog A)
| Print (o : Output) (k : Prog A).
Arguments Ret {A} a.
Arguments Await {A} rq k.
Arguments SetState {A} u k.
Arguments Print {A} o k.

Fixpoint bind {A B : Type} (p : Prog A) (f : A -> Prog B) : Prog B :=
  match p with
  | Ret a => f a
  | Await rq k => Await rq (fun r => bind (k r) f)
  | SetState u k => SetState u (bind k f)
  | Print o k => Print o (bind k f)
  end.

Definition await (rq : Req) : Prog (Resp (Payload rq)) := Await rq Ret.
Definition set (u : Session -> Session) : Prog unit := SetState u (Ret tt).
Definition print (o : Output) : Prog unit := Print o (Ret tt).

Declare Scope prog_scope.
Delimit Scope prog_scope with prog.
Notation "x <- p ;; q" := (bind p (fun x => q))
  (at level 100, p at next level, right associativity) : prog_scope.
Notation "p ;; q" := (bind p (fun _ => q))
  (at level 100, right associativity) : prog_scope.
Local Open Scope prog_scope.

(** A [try] block: the program ends with the thrown value ([inl]) or with
    its result ([inr]). *)
Definition Try (A : Type) : Type := Prog (Error + A).

Definition throw {A : Type} (e : Error) : Try A := Ret (inl e).
Definition ok {A : Type} (a : A) : Try A := Ret (inr a).
Definition bindT {A B : Type} (p : Try A) (f : A -> Try B) : Try B :=
  r <- p ;; match r with inl e => Ret (inl e) | inr a => f a end.
Definition lift {A : Type} (p : Prog A) : Try A := a <- p ;; ok a.

Notation "x <-? p ;; q" := (bindT p (fun x => q))
  (at level 100, p at next level, right associativity) : prog_scope.

(* ===================================================================== *)
(** ** The handlers *)
(* ===================================================================== *)

Inductive Variant : Type :=
| Debounced   (* src/App.js *)
| OnBlur      (* app/page.js *).

#[global] Instance variant_eq_dec : EqDecision Variant.
Proof. solve_decision. Defined.

(** [fetchChores] of the mount effect (both files). *)
Definition fetchChores : Prog unit :=
  r <- await SelectChores ;;
  match r with
  | Failed error => print (ConsoleError "Error fetching chores:" error)
  | Data choresData => set (setChores choresData)
  end.

(** [preferencesData.forEach((pref) => { preferencesMap[pref.chore_id] =
    pref.preference_score })] on [preferencesMap = {}]. *)
Definition preferencesMap (preferencesData : list (Z * score)) : gmap Z score :=
  fold_left (fun m pref => <[pref.1 := pref.2]> m) preferencesData ∅.

(** The part of [fetchRoommateData] after a roommate row was received
    (both files). *)
Definition loadPreferences (roommateData : Roommate.t) : Prog unit :=
  set (setRoommateId (Some (Roommate.id roommateData))) ;;
  r <- await (SelectPreferences (Roommate.id roommateData)) ;;
  match r with
  | Failed preferencesError =>
      print (ConsoleError "Error fetching preferences:" preferencesError)
  | Data preferencesData =>
      set (setPreferences (fun _ => preferencesMap preferencesData))
  end.

Definition clearResolved : Prog unit :=
  set (setRoommateId None) ;;
  set (setPreferences (fun _ => ∅)).

(** The state after [clearResolved]. *)
Definition cleared (st : Session) : Session :=
  setPreferences (fun _ => ∅) (setRoommateId None st).

(** [fetchRoommateData(name)].  App.js trims the name again and returns
    early on an error; page.js logs an error other than PGRST116 and falls
    through to its [if (roommateData) ... else ...]. *)
Definition fetchRoommateData (v : Variant) (name : string) : Prog unit :=
  match v with
  | Debounced =>
      let trimmedName := trim name in
      r <- await (SelectRoommateSingle trimmedName) ;;
      match r with
      | Failed roommateError =>
          if String.eqb (code roommateError) "PGRST116"
          then clearResolved
          else print (ConsoleError "Error fetching roommate:" roommateError)
      | Data roommateData => loadPreferences roommateData
      end
  | OnBlur =>
      r <- await (SelectRoommateSingle name) ;;
      match r with
      | Failed roommateError =>
          (if negb (String.eqb (code roommateError) "PGRST116")
           then print (ConsoleError "Error fetching roommate:" roommateError)
           else Ret tt) ;;
          clearResolved
      | Data roommateData => loadPreferences roommateData
      end
  end.

(** The callback of the debounce timer (App.js) and
    [handleRoommateNameBlur] (page.js); [name] is the [roommateName] of the
    render that created the callback. *)
Definition settleName (v : Variant) (name : string) : Prog unit :=
  if negb (is_empty (trim name))
  then fetchRoommateData v (trim name)
  else clearResolved.

(** [handlePreferenceChange(choreId, score)]:
    [setPreferences((prev) => ({ ...prev, [choreId]: score }))]. *)
Definition handlePreferenceChange (choreId : Z) (sc : score) : Prog unit :=
  set (setPreferences (fun prev => <[choreId := sc]> prev)).

(** [!currentRoommateId]: null and the number 0 are falsy. *)
Definition truthy_id (x : option Z) : option Z :=
  match x with
  | Some z => if z =? 0 then None else Some z
  | None => None
  end.

(** The identity part of [handleSubmit]: [let currentRoommateId =
    roommateId; if (!currentRoommateId) { ... }], ending with the value of
    [currentRoommateId].  App.js looks the trimmed name up and inserts only
    when no row came back; page.js inserts the untrimmed name at once. *)
Definition getOrCreate (v : Variant) (st : Session) : Try Z :=
  match truthy_id (roommateId st) with
  | Some currentRoommateId => ok currentRoommateId
  | None =>
      match v with
      | Debounced =>
          let trimmedName := trim (roommateName st) in
          r <- await (SelectRoommateIdMaybeSingle trimmedName) ;;
          match r with
          | Failed fetchError => throw fetchError
          | Data (Some existingRoommate_id) =>
              set (setRoommateId (Some existingRoommate_id)) ;;
              ok existingRoommate_id
          | Data None =>
              r' <- await (InsertRoommate trimmedName) ;;
              match r' with
              | Failed roommateError => throw roommateError
              | Data roommateData =>
                  set (setRoommateId (Some (Roommate.id roommateData))) ;;
                  ok (Roommate.id roommateData)
              end
          end
      | OnBlur =>
          r' <- await (InsertRoommate (roommateName st)) ;;
          match r' with
          | Failed roommateError => throw roommateError
          | Data roommateData =>
              set (setRoommateId (Some (Roommate.id roommateData))) ;;
              ok (Roommate.id roommateData)
          end
      end
  end.

(** [chores.map((chore) => ({ roommate_id: currentRoommateId, chore_id:
    chore.id, preference_score: preferences[chore.id] || 1 }))]. *)
Definition preferencesData (currentRoommateId : Z) (st : Session) : list Pref.t :=
  map (fun chore =>
         Pref.mk currentRoommateId (Chore.id chore)
                 (or_default (preferences st !! Chore.id chore)))
      (chores st).

(** The second argument of [upsert]: [{ onConflict: 'roommate_id,chore_id' }]
    in App.js, absent in page.js. *)
Definition onConflict (v : Variant) : option string :=
  match v with
  | Debounced => Some "roommate_id,chore_id"
  | OnBlur => None
  end.

Definition savedNotice : Output := Alert "Preferences saved successfully!".
Definition failedNotice : Output :=
  Alert "An error occurred while saving preferences.".

(** The [try] block of [handleSubmit]. *)
Definition submitBody (v : Variant) (st : Session) : Try unit :=
  currentRoommateId <-? getOrCreate v st ;;
  r <- await (UpsertPreferences (preferencesData currentRoommateId st)
                                (onConflict v)) ;;
  match r with
  | Failed preferencesError => throw preferencesError
  | Data _ => lift (print savedNotice)
  end.

(** [handleSubmit]: [setLoading(true); try { ... } catch (error) { ... }
    finally { setLoading(false) }]. *)
Definition handleSubmit (v : Variant) (st : Session) : Prog unit :=
  set (setLoading true) ;;
  r <- submitBody v st ;;
  match r with
  | inr _ => Ret tt
  | inl error => print (ConsoleError "Error:" error) ;; print failedNotice
  end ;;
  set (setLoading false).

(** [disabled={loading || roommateName.trim() === ''}] of the submit
    button. *)
Definition submitDisabled (s : Session) : bool :=
  loading s || is_empty (trim (roommateName s)).

(** [value={preferences[chore.id] || 1}] of a chore's selector. *)
Definition selectValue (s : Session) (choreId : Z) : score :=
  or_default (preferences s !! choreId).

(* ===================================================================== *)
(** ** Running a handler to its end *)
(* ===================================================================== *)

(** A handler that runs with nothing else interleaved: every request is
    answered by the backend before the next statement.  The backend is any
    state machine [serve]; the requests sent and the outputs are recorded
    in order. *)
Section Exec.
Context {B : Type}.
Variable serve : B -> forall rq : Req, B * Resp (Payload rq).

Record Cfg : Type := mkCfg {
  session : Session;
  backend : B;
  requests : list Req;
  console : list Output
}.

Definition start (s : Session) (b : B) : Cfg := mkCfg s b [] [].

Fixpoint exec {A : Type} (p : Prog A) (c : Cfg) : Cfg * A :=
  match p with
  | Ret a => (c, a)
  | Await rq k =>
      let '(b', r) := serve (backend c) rq in
      exec (k r) (mkCfg (session c) b' (requests c ++ [rq]) (console c))
  | SetState u k =>
      exec k (mkCfg (u (session c)) (backend c) (requests c) (console c))
  | Print o k =>
      exec k (mkCfg (session c) (backend c) (requests c) (console c ++ [o]))
  end.

(** A submit from the state [st]: the handler's closure and the live
    state are the same [st]. *)
Definition submit (v : Variant) (st : Session) (b : B) : Cfg :=
  (exec (handleSubmit v st) (start st b)).1.

(** The name field settles on [name] in the state [st]. *)
Definition settle (v : Variant) (name : string) (st : Session) (b : B) : Cfg :=
  (exec (settleName v name) (start st b)).1.

Definition succeeded (c : Cfg) : Prop := In savedNotice (console c).
Definition failed (c : Cfg) : Prop := In failedNotice (console c).
End Exec.

Arguments Cfg B : clear implicits.
Arguments mkCfg {B} session backend requests console.

(** The preference rows sent for upsert by a list of requests, in order. *)
Definition upserted (reqs : list Req) : list Pref.t :=
  concat (map (fun rq =>
                 match rq with
                 | UpsertPreferences rows _ => rows
                 | _ => []
                 end) reqs).

(* ===================================================================== *)
(** ** The remote store *)
(* ===================================================================== *)

(** Modelled from the spec: the remote row store is an external service
    (section 6, External Interfaces) and none of it is in the repository.
    [chores]: read-all.  [roommates]: lookup by exact name, insert with a
    generated id that returns the inserted row.  [preferences]: read
    filtered by [roommate_id]; batched upsert that, on its conflict target,
    updates the existing row.  What the spec leaves open and the table
    definitions would settle is the [Schema]. *)
Inductive PrefKey : Type :=
| PairKey
    (* the primary key of preferences is (roommate_id, chore_id) *)
| SurrogateKey (pair_unique : bool)
    (* the primary key is a generated column the rows do not carry;
       [pair_unique]: a unique constraint on (roommate_id, chore_id) *).

(** Modelled from the spec: the table definitions, which are not in the
    repository. *)
Record Schema : Type := mkSchema {
  unique_names : bool;       (* a unique constraint on roommates.name *)
  preferences_key : PrefKey
}.

(** Modelled from the spec: the rows of the three collections. *)
Record Store : Type := mkStore {
  chores_tbl : list Chore.t;
  roommates_tbl : list Roommate.t;
  preferences_tbl : list Pref.t
}.

Definition named (name : string) (r : Roommate.t) : bool :=
  String.eqb (Roommate.name r) name.

Definition same_pair (a b : Pref.t) : bool :=
  (Pref.roommate_id a =? Pref.roommate_id b)
  && (Pref.chore_id a =? Pref.chore_id b).

(** Modelled from the spec: the auto-generated id of a new roommate, above
    every id in the table. *)
Definition fresh_id (tbl : list Roommate.t) : Z :=
  1 + fold_right Z.max 0 (map Roommate.id tbl).

Definition noRows : Error := mkError "PGRST116" "JSON object requested, multiple (or no) rows returned".
Definition uniqueViolation : Error := mkError "23505" "duplicate key value violates unique constraint".
Definition noConflictIndex : Error := mkError "42P10" "there is no unique or exclusion constraint matching the ON CONFLICT specification".
Definition rowAffectedTwice : Error := mkError "21000" "ON CONFLICT DO UPDATE command cannot affect row a second time".

(** Modelled from the spec: the upsert of one row on (roommate_id,
    chore_id), INSERT ... ON CONFLICT (roommate_id, chore_id) DO UPDATE:
    the row with that pair is overwritten where it stands, a row of a new
    pair is added. *)
Definition upsert_row (tbl : list Pref.t) (row : Pref.t) : list Pref.t :=
  if existsb (same_pair row) tbl
  then map (fun r => if same_pair row r then row else r) tbl
  else tbl ++ [row].

Fixpoint distinct_pairs (rows : list Pref.t) : bool :=
  match rows with
  | [] => true
  | r :: rest => negb (existsb (same_pair r) rest) && distinct_pairs rest
  end.

Definition pair_indexed (sc : Schema) : bool :=
  match preferences_key sc with
  | PairKey => true
  | SurrogateKey pair_unique => pair_unique
  end.

(** Modelled from the spec: a batch merged on the pair; one statement
    cannot touch the same row twice. *)
Definition merge_on_pair (tbl rows : list Pref.t) : Resp (list Pref.t) :=
  if distinct_pairs rows
  then Data (fold_left upsert_row rows tbl)
  else Failed rowAffectedTwice.

(** Modelled from the spec: a batch whose conflict target matches no row,
    so every row is inserted, or the whole batch is refused by the unique
    constraint on the pair. *)
Definition plain_insert (pair_unique : bool) (tbl rows : list Pref.t) : Resp (list Pref.t) :=
  if pair_unique
     && (negb (distinct_pairs rows)
         || existsb (fun row => existsb (same_pair row) tbl) rows)
  then Failed uniqueViolation
  else Data (tbl ++ rows).

(** Modelled from the spec: the batched upsert.  With a conflict target
    the rows merge on it (the target needs a unique index); without one
    the conflict target is the primary key. *)
Definition upsert (sc : Schema) (tbl rows : list Pref.t) (target : option string)
  : Resp (list Pref.t) :=
  match target with
  | Some cols =>
      if String.eqb cols "roommate_id,chore_id" && pair_indexed sc
      then merge_on_pair tbl rows
      else Failed noConflictIndex
  | None =>
      match preferences_key sc with
      | PairKey => merge_on_pair tbl rows
      | SurrogateKey pair_unique => plain_insert pair_unique tbl rows
      end
  end.

(** Modelled from the spec: one request against the store.  [single()]
    wants exactly one row and [maybeSingle()] at most one, and answer
    PGRST116 otherwise; a failed request leaves the store as it was. *)
Definition query (sc : Schema) (st : Store) (rq : Req) : Store * Resp (Payload rq) :=
  match rq as rq0 return Store * Resp (Payload rq0) with
  | SelectChores => (st, Data (chores_tbl st))
  | SelectRoommateSingle name =>
      match filter (fun r => named name r = true) (roommates_tbl st) with
      | [r] => (st, Data r)
      | _ => (st, Failed noRows)
      end
  | SelectRoommateIdMaybeSingle name =>
      match filter (fun r => named name r = true) (roommates_tbl st) with
      | [] => (st, Data None)
      | [r] => (st, Data (Some (Roommate.id r)))
      | _ => (st, Failed noRows)
      end
  | InsertRoommate name =>
      if unique_names sc && existsb (named name) (roommates_tbl st)
      then (st, Failed uniqueViolation)
      else
        let row := Roommate.mk (fresh_id (roommates_tbl st)) name in
        (mkStore (chores_tbl st) (roommates_tbl st ++ [row]) (preferences_tbl st),
         Data row)
  | SelectPreferences rid =>
      (st, Data (map (fun r => (Pref.chore_id r, Pref.preference_score r))
                     (filter (fun r => Pref.roommate_id r = rid) (preferences_tbl st))))
  | UpsertPreferences rows target =>
      match upsert sc (preferences_tbl st) rows target with
      | Failed e => (st, Failed e)
      | Data tbl' => (mkStore (chores_tbl st) (roommates_tbl st) tbl', Data tt)
      end
  end.

(** Modelled from the spec: the store behind a transport that can fail.
    Each request takes the next entry of the fault list; [Some e] is a
    request that fails with [e] and leaves the store as it is. *)
Definition Remote : Type := Store * list (option Error).

Definition serveStore (sc : Schema) (b : Remote) (rq : Req) : Remote * Resp (Payload rq) :=
  match b.2 with
  | Some e :: faults => ((b.1, faults), Failed e)
  | None :: faults => let '(st', r) := query sc b.1 rq in ((st', faults), r)
  | [] => let '(st', r) := query sc b.1 rq in ((st', []), r)
  end.

(* ===================================================================== *)
(** ** The page as an event loop *)
(* ===================================================================== *)

(** Handlers run on one thread: a handler runs until its next [await], is
    parked there, and goes on when the answer arrives; other events are
    handled in between. *)
Inductive TaskKind : Type :=
| ChoresTask
| ResolveTask (seq : nat) (name : string)
    (* a call of the settle handler; [seq] counts the calls in the order
       they were made, [name] is the name it was made for.  Both are
       bookkeeping for the statements below, the code has neither. *)
| SubmitTask.

#[global] Instance taskkind_eq_dec : EqDecision TaskKind.
Proof. solve_decision. Defined.

(** A parked handler: [rest] is what is left of it, starting at the
    [await] it is parked at. *)
Record Task : Type := mkTask { kind : TaskKind; rest : Prog unit }.

Definition is_submit (t : Task) : bool :=
  match kind t with SubmitTask => true | _ => false end.

(** Runs [p] up to its next [await]. *)
Fixpoint advance (p : Prog unit) (s : Session) (out : list Output)
  : Session * list Output * option (Prog unit) :=
  match p with
  | Ret _ => (s, out, None)
  | Await _ _ => (s, out, Some p)
  | SetState u k => advance k (u s) out
  | Print o k => advance k s (out ++ [o])
  end.

Section Page.
Context {B : Type}.
Variable serve : B -> forall rq : Req, B * Resp (Payload rq).
Variable v : Variant.

Record World : Type := mkWorld {
  ui : Session;
  debounceRef : option string;
    (* the pending timer of [debounceRef.current], with the
       [roommateName] its callback closes over *)
  tasks : list Task;           (* the parked handlers, oldest first *)
  remote : B;
  printed : list Output;
  resolutions : nat            (* settle handler calls so far *)
}.

(** Starts a handler: it runs to its first [await] at once. *)
Definition spawn (k : TaskKind) (p : Prog unit) (w : World) : World :=
  let '(s, out, parked) := advance p (ui w) (printed w) in
  mkWorld s (debounceRef w)
          (match parked with
           | Some p' => tasks w ++ [mkTask k p']
           | None => tasks w
           end)
          (remote w) out (resolutions w).

(** Runs a handler that has no [await]. *)
Definition perform (p : Prog unit) (w : World) : World :=
  let '(s, out, _) := advance p (ui w) (printed w) in
  mkWorld s (debounceRef w) (tasks w) (remote w) out (resolutions w).

(** The page after its first render and mount effects: [fetchChores()]
    is on its way and, in App.js, the debounce timer is armed for the
    initial name. *)
Definition mounted (b : B) : World :=
  spawn ChoresTask fetchChores
        (mkWorld initialSession
                 (match v with Debounced => Some "" | OnBlur => None end)
                 [] b [] 0).

Inductive Event : Type :=
| TypeName (value : string)       (* onChange of the name input *)
| TimerFires                      (* the 500 ms timer runs its callback *)
| Blur                            (* onBlur of the name input *)
| PickScore (choreId : Z) (value : Z)  (* onChange of a chore's select *)
| ClickSubmit                     (* onSubmit of the form *)
| Response (i : nat)              (* the backend answers parked handler i *).

Definition startResolution (name : string) (w : World) : World :=
  let w' := spawn (ResolveTask (resolutions w) name) (settleName v name) w in
  mkWorld (ui w') (debounceRef w') (tasks w') (remote w') (printed w')
          (S (resolutions w)).

(** One event; [None] when the page offers no such event in [w]. *)
Definition step (w : World) (e : Event) : option World :=
  match e with
  | TypeName value =>
      if decide (value = roommateName (ui w)) then Some w
      else
        Some (mkWorld (setRoommateName value (ui w))
                      (match v with
                       | Debounced => Some value
                           (* clearTimeout; setTimeout(..., 500) *)
                       | OnBlur => None
                       end)
                      (tasks w) (remote w) (printed w) (resolutions w))
  | TimerFires =>
      match v, debounceRef w with
      | Debounced, Some name =>
          Some (startResolution name
                  (mkWorld (ui w) None (tasks w) (remote w) (printed w)
                           (resolutions w)))
      | _, _ => None
      end
  | Blur =>
      match v with
      | OnBlur => Some (startResolution (roommateName (ui w)) w)
      | Debounced => None
      end
  | PickScore choreId value =>
      if existsb (fun chore => Chore.id chore =? choreId) (chores (ui w))
         && (1 <=? value) && (value <=? 5)
      then Some (perform (handlePreferenceChange choreId (Num value)) w)
      else None
  | ClickSubmit =>
      if submitDisabled (ui w) then None
      else Some (spawn SubmitTask (handleSubmit v (ui w)) w)
  | Response i =>
      match tasks w !! i with
      | Some (mkTask k (Await rq cont)) =>
          let '(b', r) := serve (remote w) rq in
          let '(s, out, parked) := advance (cont r) (ui w) (printed w) in
          Some (mkWorld s (debounceRef w)
                        (match parked with
                         | Some p' => <[i := mkTask k p']> (tasks w)
                         | None => delete i (tasks w)
                         end)
                        b' out (resolutions w))
      | _ => None
      end
  end.

Fixpoint run (w : World) (es : list Event) : option World :=
  match es with
  | [] => Some w
  | e :: es' =>
      match step w e with
      | Some w' => run w' es'
      | None => None
      end
  end.

(** The submits that have started and not ended. *)
Definition submitsInFlight (w : World) : nat :=
  length (List.filter is_submit (tasks w)).

(** A parked resolution is superseded once a later settle handler call
    was made. *)
Definition superseded (w : World) (t : Task) : Prop :=
  match kind t with
  | ResolveTask seq _ => (S seq < resolutions w)%nat
  | _ => False
  end.
End Page.

Arguments World B : clear implicits.
Arguments mkWorld {B} ui debounceRef tasks remote printed resolutions.

(* ===================================================================== *)
(** ** Sample data *)
(* ===================================================================== *)

(** The catalog and the roommates of the scenarios in the specification:
    "Alex" has id 7 and one stored preference, (7, 1, 2). *)
Definition catalog : list Chore.t := [Chore.mk 1 "Dishes"; Chore.mk 2 "Trash"].

Definition emptyStore : Store := mkStore catalog [] [].

Definition household : Store :=
  mkStore catalog
          [Roommate.mk 7 "Alex"; Roommate.mk 8 "Bob"]
          [Pref.mk 7 1 (Num 2); Pref.mk 8 1 (Num 5)].

(** Two table definitions with a generated primary key on preferences:
    [strict] has the unique constraints on roommates.name and on
    (roommate_id, chore_id), [loose] has neither. *)
Definition strict : Schema := mkSchema true (SurrogateKey true).
Definition loose : Schema := mkSchema false (SurrogateKey false).

(** "Alex" typed into the name field and not resolved (no blur, or a
    lookup that found nothing), with chore 1 set to 4. *)
Definition alexTyped : Session :=
  mkSession "Alex" None catalog {[1 := Num 4]} false.

(** "Alex" resolved to id 7, with chore 1 changed to 5. *)
Definition alexResolved : Session :=
  mkSession "Alex" (Some 7) catalog {[1 := Num 5]} false.

(** A request that never reached the backend. *)
Definition fetchFailed : Error := mkError "" "TypeError: Failed to fetch".

(* ===================================================================== *)
(** ** Shapes of handlers *)
(* ===================================================================== *)

(** No [setState] call of [p] changes the component [f] of the state. *)
Fixpoint keeps {X : Type} (f : Session -> X) (p : Prog unit) : Prop :=
  match p with
  | Ret _ => True
  | Await _ k => forall r, keeps f (k r)
  | SetState u k => (forall s, f (u s) = f s) /\ keeps f k
  | Print _ k => keeps f k
  end.

(** [p] is the rest of a submit after its [setLoading(true)]: it leaves
    the pending flag alone up to its last statement, [setLoading(false)]. *)
Fixpoint endsSubmit (p : Prog unit) : Prop :=
  match p with
  | Ret _ => False
  | Await _ k => forall r, endsSubmit (k r)
  | SetState u k =>
      ((forall s, loading (u s) = loading s) /\ endsSubmit k)
      \/ ((forall s, loading (u s) = false) /\ k = Ret tt)
  | Print _ k => endsSubmit k
  end.

(** What a parked handler may still do to the pending flag. *)
Definition taskOk (t : Task) : Prop :=
  if is_submit t then endsSubmit (rest t) else keeps loading (rest t).

(** The conflict key of a preference row. *)
Definition key (row : Pref.t) : Z * Z := (Pref.roommate_id row, Pref.chore_id row).

(** The number of parked submits in a task list. *)
Definition count (l : list Task) : nat := length (List.filter is_submit l).

(** The pending flag is on exactly while one submit is parked. *)
Definition pendingInv {B : Type} (w : World B) : Prop :=
  Forall taskOk (tasks w)
  /\ submitsInFlight w = (if loading (ui w) then 1 else 0)%nat.

(** No parked handler renames the roommate, and the pending timer is the
    one of the current name. *)
Definition timerInv {B : Type} (w : World B) : Prop :=
  Forall (fun t => keeps roommateName (rest t)) (tasks w)
  /\ (forall name, debounceRef w = Some name -> name = roommateName (ui w)).

(* ===================================================================== *)
(** ** The rest of the page *)
(* ===================================================================== *)

(** [{loading ? 'Saving...' : 'Submit'}] of the submit button. *)
Definition submitLabel (s : Session) : string :=
  if loading s then "Saving..." else "Submit".

(** The name edits among a list of events. *)
Definition is_edit (e : Event) : bool :=
  match e with TypeName _ => true | _ => false end.
Definition edits (es : list Event) : nat := length (List.filter is_edit es).


(** The timers that are armed and have not fired: one or none. *)
Definition pendingTimers {B : Type} (w : World B) : nat :=
  match debounceRef w with Some _ => 1%nat | None => 0%nat end.

(** The content of the name field after the events [es], [name] before
    them: the value of the last [onChange]. *)
Definition typed (name : string) (es : list Event) : string :=
  fold_left (fun n e => match e with TypeName value => value | _ => n end)
            es name.

(** No parked handler writes the name. *)
Definition namesInv {B : Type} (w : World B) : Prop :=
  Forall (fun t => keeps roommateName (rest t)) (tasks w).

(** A parked handler other than [fetchChores], which does not write the
    catalog. *)
Definition keepsCatalog (t : Task) : Prop :=
  kind t <> ChoresTask /\ keeps chores (rest t).

(** The catalog request is the oldest parked handler and the catalog is
    still empty, or the request has been answered and no parked handler
    writes the catalog. *)
Definition catalogInv {B : Type} (w : World B) : Prop :=
  Forall keepsCatalog (tasks w)
  \/ exists others,
       tasks w = mkTask ChoresTask fetchChores :: others
       /\ Forall keepsCatalog others
       /\ chores (ui w) = [].

(** The catalog request is still parked. *)
Definition catalogPending {B : Type} (w : World B) : bool :=
  existsb (fun t => match kind t with ChoresTask => true | _ => false end)
          (tasks w).

(** A name made of white space only (or empty). *)
Fixpoint all_white (s : string) : bool :=
  match s with
  | EmptyString => true
  | String c s' => is_white c && all_white s'
  end.

(** The state after the user picks [sc] for chore [choreId]. *)
Definition pick (choreId : Z) (sc : score) (st : Session) : Session :=
  (advance (handlePreferenceChange choreId sc) st []).1.1.

(* ===================================================================== *)
(** ** Basic facts *)
(* ===================================================================== *)

Lemma is_empty_true (s : string) : is_empty s = true <-> s = "".
Proof. destruct s; simpl; split; congruence. Qed.

Lemma trimStart_head (s : string) :
  match trimStart s with
  | EmptyString => True
  | String c _ => is_white c = false
  end.
Proof.
  induction s as [|c s IH]; simpl; [exact I|].
  destruct (is_white c) eqn:E; [exact IH|exact E].
Qed.

Lemma trimEnd_head (s : string) :
  match s with
  | EmptyString => True
  | String c _ => is_white c = false
  end ->
  match trimEnd s with
  | EmptyString => s = ""
  | String c _ => is_white c = false
  end.
Proof.
  destruct s as [|c s]; simpl; [reflexivity|].
  intros H. rewrite H. simpl. exact H.
Qed.

Lemma trimEnd_idempotent (s : string) : trimEnd (trimEnd s) = trimEnd s.
Proof.
  induction s as [|c s IH]; simpl; [reflexivity|].
  destruct (is_white c && is_empty (trimEnd s)) eqn:E; simpl; [reflexivity|].
  rewrite IH, E. reflexivity.
Qed.

Lemma trimStart_fixed (s : string) :
  match s with
  | EmptyString => True
  | String c _ => is_white c = false
  end -> trimStart s = s.
Proof. destruct s as [|c s]; simpl; [reflexivity|]. intros H. rewrite H. reflexivity. Qed.

(** Trimming a trimmed name changes nothing: App.js trims the name in the
    timer callback and again in [fetchRoommateData]. *)
Lemma trim_idempotent (s : string) : trim (trim s) = trim s.
Proof.
  unfold trim.
  pose proof (trimEnd_head (trimStart s) (trimStart_head s)) as H.
  rewrite trimStart_fixed.
  - apply trimEnd_idempotent.
  - destruct (trimEnd (trimStart s)); [exact I|exact H].
Qed.

Section ExecFacts.
Context {B : Type}.
Variable serve : B -> forall rq : Req, B * Resp (Payload rq).

Lemma exec_bind {A C : Type} (p : Prog A) (f : A -> Prog C) (c : Cfg B) :
  exec serve (bind p f) c =
  let '(c', a) := exec serve p c in exec serve (f a) c'.
Proof.
  revert c. induction p as [a|rq k IH|u k IH|o k IH]; intros c; simpl.
  - reflexivity.
  - destruct (serve (backend c) rq) as [b' r]. apply IH.
  - apply IH.
  - apply IH.
Qed.
End ExecFacts.

#[global] Arguments preferencesData : simpl never.

Lemma preferencesData_length (rid : Z) (st : Session) :
  length (preferencesData rid st) = length (chores st).
Proof. unfold preferencesData. apply length_map. Qed.

Lemma preferencesData_chore_ids (rid : Z) (st : Session) :
  map Pref.chore_id (preferencesData rid st) = map Chore.id (chores st).
Proof.
  unfold preferencesData. rewrite map_map. reflexivity.
Qed.

Lemma preferencesData_roommate (rid : Z) (st : Session) :
  Forall (fun row => Pref.roommate_id row = rid) (preferencesData rid st).
Proof.
  unfold preferencesData. apply Forall_forall. intros row Hin.
  apply list_elem_of_In, in_map_iff in Hin. destruct Hin as [chore [<- _]].
  reflexivity.
Qed.

Lemma preferencesData_default (rid : Z) (st : Session) (chore : Chore.t) :
  In chore (chores st) ->
  preferences st !! Chore.id chore = None ->
  In (Pref.mk rid (Chore.id chore) (Num 1)) (preferencesData rid st).
Proof.
  intros Hin Habs. unfold preferencesData. apply in_map_iff.
  exists chore. rewrite Habs. split; [reflexivity|exact Hin].
Qed.

Lemma truthy_id_Some (x : option Z) (z : Z) : truthy_id x = Some z -> x = Some z.
Proof.
  destruct x as [y|]; simpl; [|discriminate].
  destruct (y =? 0); [discriminate|]. exact (fun H => H).
Qed.

Lemma or_default_falsy (val : score) : truthy val = false -> or_default (Some val) = Num 1.
Proof. intros H. simpl. rewrite H. reflexivity. Qed.

(** Case analysis on the backend's answer to the next request. *)
Ltac answer serve :=
  match goal with
  | |- context [serve ?b ?rq] =>
      let r := fresh "r" in
      destruct (serve b rq) as [? r] eqn:?; simpl in r;
      (destruct r as [?|[?|]] || destruct r)
  end.
Ltac walk serve := cbn; repeat (answer serve; cbn).

(* ===================================================================== *)
(** ** The handlers, one at a time *)
(* ===================================================================== *)

Section Handlers.
Context {B : Type}.
Variable serve : B -> forall rq : Req, B * Resp (Payload rq).

(** C1.  A submit that succeeds sends, for the identity [rid] it ends
    with (the resolved identity, when there was one), exactly one row per
    chore of the catalog, in catalog order, each with [roommate_id = rid]:
    as many rows as the catalog has chores, and a chore with no entry in
    the preference map is written with score 1. *)
Theorem submit_writes_one_row_per_chore (v : Variant) (st : Session) (b : B) :
  succeeded (submit serve v st b) ->
  exists rid : Z,
    roommateId (session (submit serve v st b)) = Some rid
    /\ (forall rid0, truthy_id (roommateId st) = Some rid0 -> rid0 = rid)
    /\ upserted (requests (submit serve v st b))
       = map (fun chore =>
                Pref.mk rid (Chore.id chore)
                        (or_default (preferences st !! Chore.id chore)))
             (chores st)
    /\ length (upserted (requests (submit serve v st b))) = length (chores st)
    /\ (forall chore, In chore (chores st) ->
          preferences st !! Chore.id chore = None ->
          In (Pref.mk rid (Chore.id chore) (Num 1))
             (upserted (requests (submit serve v st b)))).
Proof.
  unfold submit, handleSubmit, submitBody, getOrCreate, succeeded.
  destruct (truthy_id (roommateId st)) as [rid|] eqn:Hid; [|destruct v];
    walk serve.
  all: try (intros [H|[H|[]]]; discriminate H).
  all: intros _; rewrite app_nil_r.
  all: eexists; split;
    [first [reflexivity | apply truthy_id_Some; exact Hid]|].
  all: split; [intros rid0 H; congruence|].
  all: split; [reflexivity|].
  all: split; [apply preferencesData_length|].
  all: apply preferencesData_default.
Qed.

Lemma submit_success_rows (v : Variant) (st : Session) (b : B) :
  succeeded (submit serve v st b) ->
  exists rid,
    roommateId (session (submit serve v st b)) = Some rid
    /\ upserted (requests (submit serve v st b)) = preferencesData rid st.
Proof.
  unfold submit, handleSubmit, submitBody, getOrCreate, succeeded.
  destruct (truthy_id (roommateId st)) as [rid|] eqn:Hid; [|destruct v];
    walk serve.
  all: try (intros [H|[H|[]]]; discriminate H).
  all: intros _; rewrite app_nil_r; eexists; split;
    [first [reflexivity | apply truthy_id_Some; exact Hid]|reflexivity].
Qed.

Lemma resolved_submit_rows (v : Variant) (st : Session) (b : B) (rid : Z) :
  truthy_id (roommateId st) = Some rid ->
  upserted (requests (submit serve v st b)) = preferencesData rid st.
Proof.
  intros Hid. unfold submit, handleSubmit, submitBody, getOrCreate.
  rewrite Hid. walk serve; apply app_nil_r.
Qed.

(** C9.  A chore whose entry in the preference map is falsy (0, NaN or
    null) is shown with selector value 1 and written by submit with score
    1, exactly as if the entry were unset: the unset map gives the same
    selector value and the same requests.  For a chore of the catalog the
    row with score 1 is among the rows sent: always when the identity is
    resolved, and for the identity the submit ends with whenever the
    submit succeeds. *)
Theorem falsy_entry_defaults_to_one
  (v : Variant) (st : Session) (b : B) (choreId : Z) (val : score) :
  preferences st !! choreId = Some val ->
  truthy val = false ->
  let unset := setPreferences (delete choreId) st in
  selectValue st choreId = Num 1
  /\ selectValue unset choreId = Num 1
  /\ (forall row, In row (upserted (requests (submit serve v st b))) ->
        Pref.chore_id row = choreId -> Pref.preference_score row = Num 1)
  /\ requests (submit serve v unset b) = requests (submit serve v st b)
  /\ (In choreId (map Chore.id (chores st)) ->
      (forall rid,
         truthy_id (roommateId st) = Some rid ->
         In (Pref.mk rid choreId (Num 1))
            (upserted (requests (submit serve v st b))))
      /\ (succeeded (submit serve v st b) ->
          exists rid,
            roommateId (session (submit serve v st b)) = Some rid
            /\ In (Pref.mk rid choreId (Num 1))
                  (upserted (requests (submit serve v st b))))).
Proof.
  intros Hval Hfalsy unset.
  assert (Hwritten : In choreId (map Chore.id (chores st)) ->
                     forall rid,
                       In (Pref.mk rid choreId (Num 1)) (preferencesData rid st)).
  { intros Hin rid. apply in_map_iff in Hin. destruct Hin as [chore [Hc Hchore]].
    unfold preferencesData. apply in_map_iff. exists chore.
    rewrite Hc, Hval. simpl. rewrite Hfalsy. split; [reflexivity|exact Hchore]. }
  assert (Hsent :
    (In choreId (map Chore.id (chores st)) ->
     (forall rid,
        truthy_id (roommateId st) = Some rid ->
        In (Pref.mk rid choreId (Num 1))
           (upserted (requests (submit serve v st b))))
     /\ (succeeded (submit serve v st b) ->
         exists rid,
           roommateId (session (submit serve v st b)) = Some rid
           /\ In (Pref.mk rid choreId (Num 1))
                 (upserted (requests (submit serve v st b)))))).
  { intros Hin. split.
    - intros rid Hid. rewrite (resolved_submit_rows v st b rid Hid).
      apply Hwritten, Hin.
    - intros Hok. destruct (submit_success_rows v st b Hok) as [rid [Hrid Hrows]].
      exists rid. split; [exact Hrid|]. rewrite Hrows. apply Hwritten, Hin. }
  cut (selectValue st choreId = Num 1
       /\ selectValue unset choreId = Num 1
       /\ (forall row, In row (upserted (requests (submit serve v st b))) ->
             Pref.chore_id row = choreId -> Pref.preference_score row = Num 1)
       /\ requests (submit serve v unset b) = requests (submit serve v st b)).
  { intros (H1 & H2 & H3 & H4). repeat (split; [assumption|]). exact Hsent. }
  clear Hwritten Hsent.
  assert (Hsame : forall c, or_default (preferences unset !! c)
                            = or_default (preferences st !! c)).
  { intros c. unfold unset. simpl. destruct (decide (c = choreId)) as [->|Hne].
    - rewrite lookup_delete_eq, Hval. simpl. rewrite Hfalsy. reflexivity.
    - rewrite lookup_delete_ne by congruence. reflexivity. }
  assert (Hdata : forall rid, preferencesData rid unset = preferencesData rid st).
  { intros rid. unfold preferencesData. apply map_ext. intros chore.
    rewrite Hsame. reflexivity. }
  assert (Hrow : forall rid row, In row (preferencesData rid st) ->
                   Pref.chore_id row = choreId ->
                   Pref.preference_score row = Num 1).
  { intros rid row Hin Hc. unfold preferencesData in Hin.
    apply in_map_iff in Hin. destruct Hin as [chore [<- _]]. simpl in *.
    rewrite Hc, Hval. simpl. rewrite Hfalsy. reflexivity. }
  split; [unfold selectValue; rewrite Hval; apply or_default_falsy, Hfalsy|].
  split; [unfold selectValue; rewrite Hsame, Hval; apply or_default_falsy, Hfalsy|].
  unfold submit, handleSubmit, submitBody, getOrCreate.
  change (roommateId unset) with (roommateId st).
  change (roommateName unset) with (roommateName st).
  destruct (truthy_id (roommateId st)) as [rid|] eqn:Hid; [|destruct v];
    cbn; repeat (rewrite ?Hdata; answer serve; cbn).
  all: split; [|reflexivity].
  all: try (intros row []).
  all: rewrite app_nil_r; apply Hrow.
Qed.

(** C10.  [handlePreferenceChange(c, s)] sets the entry of [c] to [s] and
    leaves every other entry, the resolved identity, the name, the catalog
    and the pending flag as they were; it sends nothing. *)
Theorem preference_change_frame (choreId : Z) (sc : score) (st : Session) (b : B) :
  let c := (exec serve (handlePreferenceChange choreId sc) (start st b)).1 in
  preferences (session c) !! choreId = Some sc
  /\ (forall other, other <> choreId ->
        preferences (session c) !! other = preferences st !! other)
  /\ roommateId (session c) = roommateId st
  /\ roommateName (session c) = roommateName st
  /\ chores (session c) = chores st
  /\ loading (session c) = loading st
  /\ requests c = [] /\ backend c = b.
Proof.
  cbn. split; [apply lookup_insert_eq|].
  split; [intros other Hne; apply lookup_insert_ne; congruence|].
  repeat split.
Qed.

(** C7.  When the name trims to the empty string, settling the name
    field sends no request and leaves no resolved identity and an empty
    preference map. *)
Theorem empty_name_settles_without_lookup
  (v : Variant) (name : string) (st : Session) (b : B) :
  trim name = "" ->
  let c := settle serve v name st b in
  requests c = [] /\ backend c = b /\ console c = []
  /\ roommateId (session c) = None
  /\ preferences (session c) = ∅
  /\ session c = setPreferences (fun _ => ∅) (setRoommateId None st).
Proof.
  intros Hempty. unfold settle, settleName. rewrite Hempty. cbn.
  repeat split.
Qed.

End Handlers.

(* ===================================================================== *)
(** ** Submit and resolution: what a failure leaves behind *)
(* ===================================================================== *)

Section Failures.
Context {B : Type}.
Variable serve : B -> forall rq : Req, B * Resp (Payload rq).




(** C6 (amended).  Settling a name that does not trim to the empty string
    sends the lookup of the trimmed name.  If the lookup answers PGRST116
    (no such roommate), the resolved identity is cleared, the preference
    map is emptied and nothing is reported.  If in App.js it fails with
    another error, the state is unchanged and the error is logged.  If it
    finds a roommate, the resolved identity becomes that roommate's id at
    once; when the preference fetch that follows fails, the error is
    logged and the preference map is unchanged, and when it succeeds the
    map is replaced by the fetched scores. *)
Theorem resolution_outcomes
  (v : Variant) (name : string) (st : Session) (b b1 : B)
  (r : Resp (Payload (SelectRoommateSingle (trim name)))) :
  trim name <> "" ->
  serve b (SelectRoommateSingle (trim name)) = (b1, r) ->
  let c := settle serve v name st b in
  match r with
  | Failed e =>
      if String.eqb (code e) "PGRST116"
      then session c = cleared st /\ console c = []
           /\ requests c = [SelectRoommateSingle (trim name)]
      else v = Debounced ->
           session c = st
           /\ console c = [ConsoleError "Error fetching roommate:" e]
           /\ requests c = [SelectRoommateSingle (trim name)]
  | Data roommateData =>
      forall b2 r2,
        serve b1 (SelectPreferences (Roommate.id roommateData)) = (b2, r2) ->
        match r2 with
        | Failed e =>
            session c = setRoommateId (Some (Roommate.id roommateData)) st
            /\ console c = [ConsoleError "Error fetching preferences:" e]
        | Data rows =>
            session c
            = setPreferences (fun _ => preferencesMap rows)
                (setRoommateId (Some (Roommate.id roommateData)) st)
            /\ console c = []
        end
  end.
Proof.
  intros Hname Hlookup c. subst c. unfold settle, settleName.
  assert (Hne : is_empty (trim name) = false).
  { destruct (is_empty (trim name)) eqn:E; [|reflexivity].
    apply is_empty_true in E. contradiction. }
  rewrite Hne. cbn [negb]. unfold fetchRoommateData.
  destruct v; rewrite ?trim_idempotent; cbn; rewrite Hlookup;
    destruct r as [e|roommateData]; cbn.
  - destruct (String.eqb (code e) "PGRST116"); cbn.
    + repeat split.
    + intros _. destruct st; repeat split.
  - intros b2 r2 Hfetch. rewrite Hfetch. destruct r2; cbn; repeat split.
  - destruct (String.eqb (code e) "PGRST116"); cbn.
    + repeat split.
    + intros H; discriminate H.
  - intros b2 r2 Hfetch. rewrite Hfetch. destruct r2; cbn; repeat split.
Qed.

End Failures.

(* ===================================================================== *)
(** ** The event loop: what parked handlers can still do *)
(* ===================================================================== *)


Lemma advance_keeps {X : Type} (f : Session -> X) (p : Prog unit) :
  keeps f p ->
  forall s out s' out' parked,
    advance p s out = (s', out', parked) ->
    f s' = f s /\ (forall p', parked = Some p' -> keeps f p').
Proof.
  induction p as [a|rq k IH|u k IH|o k IH]; simpl; intros Hk s out s' out' parked Hadv.
  - inversion Hadv; subst. split; [reflexivity|]. intros p' H; discriminate H.
  - inversion Hadv; subst. split; [reflexivity|]. intros p' H.
    inversion H; subst. exact Hk.
  - destruct Hk as [Hu Hk]. destruct (IH Hk _ _ _ _ _ Hadv) as [Hf Hp].
    split; [rewrite Hf; apply Hu|exact Hp].
  - exact (IH Hk _ _ _ _ _ Hadv).
Qed.

Lemma advance_endsSubmit (p : Prog unit) :
  endsSubmit p ->
  forall s out s' out' parked,
    advance p s out = (s', out', parked) ->
    match parked with
    | Some p' => loading s' = loading s /\ endsSubmit p'
    | None => loading s' = false
    end.
Proof.
  induction p as [a|rq k IH|u k IH|o k IH]; simpl; intros Hk s out s' out' parked Hadv.
  - contradiction.
  - inversion Hadv; subst. split; [reflexivity|exact Hk].
  - destruct Hk as [[Hu Hk]|[Hu ->]].
    + specialize (IH Hk _ _ _ _ _ Hadv). destruct parked as [p'|]; [|exact IH].
      destruct IH as [Hl Hp]. split; [rewrite Hl; apply Hu|exact Hp].
    + simpl in Hadv. inversion Hadv; subst. apply Hu.
  - exact (IH Hk _ _ _ _ _ Hadv).
Qed.

Ltac shape :=
  repeat first
    [ progress cbn
    | split
    | intros [?|[?|]]
    | intros [?|?]
    | intro
    | match goal with
      | |- context [if ?c then _ else _] => destruct c
      end ];
  try reflexivity.

Lemma keeps_fetchChores {X} (f : Session -> X) :
  (forall v s, f (setChores v s) = f s) -> keeps f fetchChores.
Proof. intros H. shape. apply H. Qed.

Lemma keeps_settleName {X} (f : Session -> X) (v : Variant) (name : string) :
  (forall x s, f (setRoommateId x s) = f s) ->
  (forall x s, f (setPreferences x s) = f s) ->
  keeps f (settleName v name).
Proof.
  intros H1 H2. unfold settleName, fetchRoommateData.
  destruct (negb (is_empty (trim name))); [destruct v|]; shape; auto.
Qed.

Lemma keeps_handlePreferenceChange {X} (f : Session -> X) c sc :
  (forall x s, f (setPreferences x s) = f s) ->
  keeps f (handlePreferenceChange c sc).
Proof. intros H. shape. apply H. Qed.

Lemma keeps_handleSubmit {X} (f : Session -> X) v st :
  (forall x s, f (setRoommateId x s) = f s) ->
  (forall x s, f (setLoading x s) = f s) ->
  keeps f (handleSubmit v st).
Proof.
  intros H1 H2. unfold handleSubmit, submitBody, getOrCreate.
  destruct (truthy_id (roommateId st)); [|destruct v]; shape; auto.
Qed.

Lemma endsSubmit_handleSubmit v st :
  exists p, handleSubmit v st = SetState (setLoading true) p /\ endsSubmit p.
Proof.
  eexists. split; [reflexivity|].
  unfold submitBody, getOrCreate.
  destruct (truthy_id (roommateId st)); [|destruct v]; cbn.
  all: repeat first [ progress cbn | intros [?|[?|]] | intros [?|?]
                    | left; split; [intro; reflexivity|] | right; split; [intro; reflexivity|reflexivity] ].
Qed.


Lemma count_app (l l' : list Task) : count (l ++ l') = (count l + count l')%nat.
Proof. unfold count. rewrite List.filter_app, length_app. reflexivity. Qed.

Lemma count_insert (l : list Task) (i : nat) (t t' : Task) :
  l !! i = Some t -> is_submit t' = is_submit t ->
  count (<[i := t']> l) = count l.
Proof.
  unfold count. revert i. induction l as [|a l IH]; intros [|i] Hl Hs; simpl in *;
    try discriminate.
  - inversion Hl; subst. rewrite Hs. destruct (is_submit t); reflexivity.
  - destruct (is_submit a); simpl; rewrite (IH i Hl Hs); reflexivity.
Qed.

Lemma count_delete (l : list Task) (i : nat) (t : Task) :
  l !! i = Some t ->
  count l = (count (delete i l) + (if is_submit t then 1 else 0))%nat.
Proof.
  unfold count. revert i. induction l as [|a l IH]; intros [|i] Hl; simpl in *;
    try discriminate.
  - inversion Hl; subst. destruct (is_submit t); simpl; lia.
  - destruct (is_submit a); simpl; rewrite (IH i Hl); reflexivity.
Qed.

Section Loop.
Context {B : Type}.
Variable serve : B -> forall rq : Req, B * Resp (Payload rq).
Variable v : Variant.

Lemma run_invariant (P : World B -> Prop) (w0 : World B) :
  P w0 ->
  (forall w e w', P w -> step serve v w e = Some w' -> P w') ->
  forall es w, run serve v w0 es = Some w -> P w.
Proof.
  intros H0 Hstep es. revert w0 H0.
  induction es as [|e es IH]; simpl; intros w0 H0 w Hrun.
  - inversion Hrun; subst. exact H0.
  - destruct (step serve v w0 e) as [w1|] eqn:E; [|discriminate].
    exact (IH w1 (Hstep _ _ _ H0 E) w Hrun).
Qed.

Lemma pendingInv_spawn_keeps (k : TaskKind) (p : Prog unit) (w : World B) :
  k <> SubmitTask -> keeps loading p -> pendingInv w -> pendingInv (spawn k p w).
Proof.
  intros Hk Hp [Hall Hcount]. unfold spawn.
  destruct (advance p (ui w) (printed w)) as [[s out] parked] eqn:Hadv.
  destruct (advance_keeps loading p Hp _ _ _ _ _ Hadv) as [Hl Hparked].
  unfold pendingInv, submitsInFlight in *. cbn.
  destruct parked as [p'|]; rewrite Hl.
  - split.
    + apply Forall_app. split; [exact Hall|]. constructor; [|constructor].
      unfold taskOk, is_submit. cbn. destruct k; try contradiction; auto.
    + fold (count (tasks w ++ [mkTask k p'])). rewrite count_app.
      fold (count (tasks w)) in Hcount. rewrite Hcount.
      unfold count, is_submit. cbn. destruct k; try contradiction; cbn; lia.
  - split; assumption.
Qed.

Lemma pendingInv_step (w : World B) (e : Event) (w' : World B) :
  pendingInv w -> step serve v w e = Some w' -> pendingInv w'.
Proof.
  intros Hinv Hstep. destruct e as [value| | |choreId value| |i]; simpl in Hstep.
  - destruct (decide (value = roommateName (ui w))); inversion Hstep; subst;
      [exact Hinv|]. exact Hinv.
  - destruct v; [|discriminate]. destruct (debounceRef w) as [name|]; [|discriminate].
    inversion Hstep; subst. unfold startResolution.
    match goal with |- pendingInv (mkWorld (ui ?x) _ _ _ _ _) =>
      assert (H : pendingInv x) end.
    { apply pendingInv_spawn_keeps; [discriminate| |exact Hinv].
      apply keeps_settleName; reflexivity. }
    exact H.
  - destruct v; [discriminate|]. inversion Hstep; subst. unfold startResolution.
    match goal with |- pendingInv (mkWorld (ui ?x) _ _ _ _ _) =>
      assert (H : pendingInv x) end.
    { apply pendingInv_spawn_keeps; [discriminate| |exact Hinv].
      apply keeps_settleName; reflexivity. }
    exact H.
  - destruct (_ && _ && _); [|discriminate]. inversion Hstep; subst.
    exact Hinv.
  - destruct (submitDisabled (ui w)) eqn:Hdis; [discriminate|].
    inversion Hstep; subst. clear Hstep.
    unfold submitDisabled in Hdis. apply orb_false_elim in Hdis as [Hl _].
    destruct Hinv as [Hall Hcount]. rewrite Hl in Hcount.
    destruct (endsSubmit_handleSubmit v (ui w)) as [p [-> Hp]].
    unfold spawn. cbn [advance].
    destruct (advance p (setLoading true (ui w)) (printed w)) as [[s out] parked] eqn:Hadv.
    pose proof (advance_endsSubmit p Hp _ _ _ _ _ Hadv) as H.
    unfold pendingInv, submitsInFlight in *. cbn.
    destruct parked as [p'|].
    + destruct H as [-> Hp']. cbn. split.
      * apply Forall_app. split; [exact Hall|]. constructor; [|constructor].
        exact Hp'.
      * fold (count (tasks w ++ [mkTask SubmitTask p'])). rewrite count_app.
        fold (count (tasks w)) in Hcount. rewrite Hcount. reflexivity.
    + rewrite H. split; assumption.
  - destruct (tasks w !! i) as [[k [a|rq cont|u p|o p]]|] eqn:Hi; try discriminate.
    destruct (serve (remote w) rq) as [b' r].
    destruct (advance (cont r) (ui w) (printed w)) as [[s out] parked] eqn:Hadv.
    inversion Hstep; subst. clear Hstep.
    destruct Hinv as [Hall Hcount].
    pose proof (Forall_lookup_1 _ _ _ _ Hall Hi) as Hok.
    unfold pendingInv, submitsInFlight in *. cbn.
    fold (count (tasks w)) in Hcount.
    unfold taskOk in Hok. destruct (is_submit (mkTask k (Await rq cont))) eqn:Hsub;
      cbn in Hok.
    + pose proof (advance_endsSubmit _ (Hok r) _ _ _ _ _ Hadv) as H.
      destruct parked as [p'|].
      * destruct H as [Hl Hp']. rewrite Hl. split.
        -- apply Forall_insert; [exact Hall|]. unfold taskOk.
           change (is_submit (mkTask k p')) with (is_submit (mkTask k (Await rq cont))).
           rewrite Hsub. exact Hp'.
        -- fold (count (<[i:=mkTask k p']> (tasks w))).
           rewrite (count_insert _ _ _ _ Hi); [exact Hcount|reflexivity].
      * rewrite H. split; [apply Forall_delete; exact Hall|].
        fold (count (delete i (tasks w))).
        pose proof (count_delete _ _ _ Hi) as Hd. rewrite Hsub in Hd.
        destruct (loading (ui w)); lia.
    + destruct (advance_keeps loading _ (Hok r) _ _ _ _ _ Hadv) as [Hl Hparked].
      rewrite Hl. destruct parked as [p'|].
      * split.
        -- apply Forall_insert; [exact Hall|]. unfold taskOk.
           change (is_submit (mkTask k p')) with (is_submit (mkTask k (Await rq cont))).
           rewrite Hsub. apply Hparked. reflexivity.
        -- fold (count (<[i:=mkTask k p']> (tasks w))).
           rewrite (count_insert _ _ _ _ Hi); [exact Hcount|reflexivity].
      * split; [apply Forall_delete; exact Hall|].
        fold (count (delete i (tasks w))).
        pose proof (count_delete _ _ _ Hi) as Hd. rewrite Hsub in Hd.
        lia.
Qed.

Lemma pendingInv_mounted (b : B) : pendingInv (mounted v b).
Proof.
  unfold mounted. apply pendingInv_spawn_keeps; [discriminate| |].
  - apply keeps_fetchChores. reflexivity.
  - split; [constructor|reflexivity].
Qed.
End Loop.

(* ===================================================================== *)
(** ** The event loop: one submit, and the timer of the current name *)
(* ===================================================================== *)

Section LoopClaims.
Context {B : Type}.
Variable serve : B -> forall rq : Req, B * Resp (Payload rq).

Lemma submit_ends_enabled (v : Variant) (st : Session) (b : B) :
  loading (session (submit serve v st b)) = false
  /\ roommateName (session (submit serve v st b)) = roommateName st.
Proof.
  unfold submit, handleSubmit, submitBody, getOrCreate.
  destruct (truthy_id (roommateId st)); [|destruct v]; walk serve.
  all: split; reflexivity.
Qed.

(** C8.  In every state the page can reach, at most one submit is in
    flight; the submit control is disabled exactly when a submit is in
    flight or the name trims to the empty string, so it is disabled while
    a save is pending and is enabled again (for a non-empty name) once the
    submit has ended; a disabled control starts no submit; and a submit
    that has run to its end, with or without failure, has turned the
    pending flag off. *)
Theorem one_submit_at_a_time (v : Variant) (b0 : B) (es : list Event) (w : World B) :
  run serve v (mounted v b0) es = Some w ->
  (submitsInFlight w <= 1)%nat
  /\ submitDisabled (ui w)
     = (0 <? submitsInFlight w)%nat || is_empty (trim (roommateName (ui w)))
  /\ (submitDisabled (ui w) = true -> step serve v w ClickSubmit = None)
  /\ (forall st b,
        loading (session (submit serve v st b)) = false
        /\ submitDisabled (session (submit serve v st b))
           = is_empty (trim (roommateName st))).
Proof.
  intros Hrun.
  assert (Hinv : pendingInv w).
  { revert Hrun. apply run_invariant.
    - apply pendingInv_mounted.
    - apply pendingInv_step. }
  destruct Hinv as [_ Hcount]. unfold submitDisabled at 1.
  split; [rewrite Hcount; destruct (loading (ui w)); lia|].
  split; [rewrite Hcount; destruct (loading (ui w)); reflexivity|].
  split; [intros Hdis; simpl; rewrite Hdis; reflexivity|].
  intros st b. destruct (submit_ends_enabled v st b) as [Hl Hn].
  split; [exact Hl|]. unfold submitDisabled. rewrite Hl, Hn. reflexivity.
Qed.

Lemma timerInv_spawn (k : TaskKind) (p : Prog unit) (w : World B) :
  keeps roommateName p -> timerInv w -> timerInv (spawn k p w).
Proof.
  intros Hp [Hall Href]. unfold spawn.
  destruct (advance p (ui w) (printed w)) as [[s out] parked] eqn:Hadv.
  destruct (advance_keeps roommateName p Hp _ _ _ _ _ Hadv) as [Hn Hparked].
  unfold timerInv. cbn. rewrite Hn. split; [|exact Href].
  destruct parked as [p'|]; [|exact Hall].
  apply Forall_app. split; [exact Hall|]. constructor; [|constructor].
  apply Hparked. reflexivity.
Qed.

Lemma timerInv_step (w : World B) (e : Event) (w' : World B) :
  timerInv w -> step serve Debounced w e = Some w' -> timerInv w'.
Proof.
  intros Hinv Hstep. destruct e as [value| | |choreId value| |i]; simpl in Hstep.
  - destruct (decide (value = roommateName (ui w))); inversion Hstep; subst;
      [exact Hinv|].
    destruct Hinv as [Hall _]. split; [exact Hall|].
    cbn. intros name H. inversion H. reflexivity.
  - destruct (debounceRef w) as [name|]; [|discriminate].
    inversion Hstep; subst. unfold startResolution.
    match goal with |- timerInv (mkWorld (ui ?x) _ _ _ _ _) =>
      assert (H : timerInv x) end.
    { apply timerInv_spawn; [apply keeps_settleName; reflexivity|].
      destruct Hinv as [Hall _]. split; [exact Hall|]. cbn. discriminate. }
    exact H.
  - discriminate.
  - destruct (_ && _ && _); [|discriminate]. inversion Hstep; subst.
    exact Hinv.
  - destruct (submitDisabled (ui w)); [discriminate|].
    inversion Hstep; subst. apply timerInv_spawn; [|exact Hinv].
    apply keeps_handleSubmit; reflexivity.
  - destruct (tasks w !! i) as [[k [a|rq cont|u p|o p]]|] eqn:Hi; try discriminate.
    destruct (serve (remote w) rq) as [b' r].
    destruct (advance (cont r) (ui w) (printed w)) as [[s out] parked] eqn:Hadv.
    inversion Hstep; subst. clear Hstep.
    destruct Hinv as [Hall Href].
    pose proof (Forall_lookup_1 _ _ _ _ Hall Hi) as Hok. cbn in Hok.
    destruct (advance_keeps roommateName _ (Hok r) _ _ _ _ _ Hadv) as [Hn Hparked].
    unfold timerInv. cbn. rewrite Hn. split; [|exact Href].
    destruct parked as [p'|].
    + apply Forall_insert; [exact Hall|]. apply Hparked. reflexivity.
    + apply Forall_delete. exact Hall.
Qed.

Lemma timerInv_mounted (b : B) : timerInv (mounted Debounced b).
Proof.
  unfold mounted. apply timerInv_spawn.
  - apply keeps_fetchChores. reflexivity.
  - split; [constructor|]. cbn. intros name H. inversion H. reflexivity.
Qed.

(** C4 (amended).  In App.js the pending debounce timer always carries
    the name currently in the field, so when it fires the resolution it
    starts is the one for the current name: the timer armed for a
    superseded name never runs.  In both files a resolution of a name that
    does not trim to the empty string, run to its end with nothing
    interleaved, leaves the state that its own answers determine.  When
    the lookup finds a roommate, the resolved identity is that roommate's
    id, and the preference map is exactly the fetched scores when the
    preference fetch succeeds (whatever the map held before) and is left
    as it was when the fetch fails.  When the lookup answers PGRST116
    there is no identity and the map is empty.  When in App.js the lookup
    fails with another error, identity and map are as they were. *)
Theorem resolution_of_current_name (b0 : B) (es : list Event) (w : World B) :
  run serve Debounced (mounted Debounced b0) es = Some w ->
  (forall name, debounceRef w = Some name -> name = roommateName (ui w))
  /\ (forall w', step serve Debounced w TimerFires = Some w' ->
        w' = startResolution Debounced (roommateName (ui w))
               (mkWorld (ui w) None (tasks w) (remote w) (printed w)
                        (resolutions w)))
  /\ (forall (v : Variant) (name : string) (st : Session) (b b1 : B)
             (r : Resp (Payload (SelectRoommateSingle (trim name)))),
        trim name <> "" ->
        serve b (SelectRoommateSingle (trim name)) = (b1, r) ->
        match r with
        | Data roommateData =>
            forall b2 r2,
              serve b1 (SelectPreferences (Roommate.id roommateData))
              = (b2, r2) ->
              roommateId (session (settle serve v name st b))
              = Some (Roommate.id roommateData)
              /\ preferences (session (settle serve v name st b))
                 = match r2 with
                   | Data rows => preferencesMap rows
                   | Failed _ => preferences st
                   end
        | Failed e =>
            if String.eqb (code e) "PGRST116"
            then roommateId (session (settle serve v name st b)) = None
                 /\ preferences (session (settle serve v name st b)) = ∅
            else v = Debounced ->
                 roommateId (session (settle serve v name st b))
                 = roommateId st
                 /\ preferences (session (settle serve v name st b))
                    = preferences st
        end).
Proof.
  intros Hrun.
  assert (Hinv : timerInv w).
  { revert Hrun. apply run_invariant.
    - apply timerInv_mounted.
    - apply timerInv_step. }
  destruct Hinv as [_ Href].
  split; [exact Href|].
  split.
  { intros w' Hstep. simpl in Hstep.
    destruct (debounceRef w) as [name|] eqn:Hd; [|discriminate].
    rewrite <- (Href name eq_refl). inversion Hstep. reflexivity. }
  intros v name st b b1 r Hname Hlookup. unfold settle, settleName.
  assert (Hne : is_empty (trim name) = false).
  { destruct (is_empty (trim name)) eqn:E; [|reflexivity].
    apply is_empty_true in E. contradiction. }
  rewrite Hne. cbn [negb]. unfold fetchRoommateData.
  destruct v; rewrite ?trim_idempotent; cbn; rewrite Hlookup;
    destruct r as [e|roommateData]; cbn.
  - destruct (String.eqb (code e) "PGRST116"); cbn.
    + split; reflexivity.
    + intros _. split; reflexivity.
  - intros b2 r2 Hfetch. rewrite Hfetch. destruct r2; cbn; split; reflexivity.
  - destruct (String.eqb (code e) "PGRST116"); cbn.
    + split; reflexivity.
    + intros H; discriminate H.
  - intros b2 r2 Hfetch. rewrite Hfetch. destruct r2; cbn; split; reflexivity.
Qed.

End LoopClaims.

(* ===================================================================== *)
(** ** The store: upsert on (roommate_id, chore_id) *)
(* ===================================================================== *)

Lemma same_pair_key (a b : Pref.t) : same_pair a b = true <-> key a = key b.
Proof.
  unfold same_pair, key. rewrite andb_true_iff, !Z.eqb_eq. split.
  - intros [-> ->]. reflexivity.
  - intros H. inversion H. split; reflexivity.
Qed.

Lemma existsb_same_pair (row : Pref.t) (tbl : list Pref.t) :
  existsb (same_pair row) tbl = true <-> In (key row) (map key tbl).
Proof.
  rewrite existsb_exists, in_map_iff. split.
  - intros [x [Hin Hs]]. exists x. apply same_pair_key in Hs. split; [congruence|exact Hin].
  - intros [x [Hk Hin]]. exists x. split; [exact Hin|]. apply same_pair_key. congruence.
Qed.

Lemma distinct_pairs_NoDup (rows : list Pref.t) :
  distinct_pairs rows = true <-> List.NoDup (map key rows).
Proof.
  induction rows as [|r rows IH]; simpl.
  - split; [constructor|reflexivity].
  - rewrite andb_true_iff, negb_true_iff, IH. split.
    + intros [Hn Hd]. constructor; [|exact Hd].
      intros Hin. apply existsb_same_pair in Hin. congruence.
    + intros H. inversion H as [|x l Hn Hd]; subst. split; [|exact Hd].
      destruct (existsb (same_pair r) rows) eqn:E; [|reflexivity].
      apply existsb_same_pair in E. contradiction.
Qed.

Lemma upsert_row_keys (tbl : list Pref.t) (row : Pref.t) :
  map key (upsert_row tbl row)
  = if existsb (same_pair row) tbl then map key tbl else map key tbl ++ [key row].
Proof.
  unfold upsert_row. destruct (existsb (same_pair row) tbl).
  - rewrite map_map. apply map_ext. intros r.
    destruct (same_pair row r) eqn:E; [|reflexivity].
    apply same_pair_key in E. exact E.
  - rewrite map_app. reflexivity.
Qed.

Lemma upsert_row_NoDup (tbl : list Pref.t) (row : Pref.t) :
  List.NoDup (map key tbl) -> List.NoDup (map key (upsert_row tbl row)).
Proof.
  intros H. rewrite upsert_row_keys.
  destruct (existsb (same_pair row) tbl) eqn:E; [exact H|].
  apply NoDup_ListNoDup, NoDup_app. apply NoDup_ListNoDup in H.
  split; [exact H|]. split; [|apply NoDup_singleton].
  intros x Hx Hx'. apply list_elem_of_singleton in Hx'. subst x.
  apply list_elem_of_In, existsb_same_pair in Hx. congruence.
Qed.

Lemma upsert_row_lookup (tbl : list Pref.t) (row : Pref.t) (i : nat) (old : Pref.t) :
  tbl !! i = Some old ->
  upsert_row tbl row !! i = Some (if same_pair row old then row else old).
Proof.
  intros Hi. unfold upsert_row. destruct (existsb (same_pair row) tbl) eqn:E.
  - rewrite list_lookup_fmap, Hi. reflexivity.
  - rewrite lookup_app_l by (apply lookup_lt_Some in Hi; exact Hi).
    rewrite Hi. destruct (same_pair row old) eqn:Es; [|reflexivity].
    exfalso. assert (existsb (same_pair row) tbl = true); [|congruence].
    apply existsb_exists. exists old. split; [|exact Es].
    apply list_elem_of_In, list_elem_of_lookup. eauto.
Qed.

Lemma upsert_row_In (tbl : list Pref.t) (row : Pref.t) : In row (upsert_row tbl row).
Proof.
  unfold upsert_row. destruct (existsb (same_pair row) tbl) eqn:E.
  - apply existsb_exists in E. destruct E as [x [Hin Hs]].
    apply in_map_iff. exists x. rewrite Hs. split; [reflexivity|exact Hin].
  - apply in_or_app. right. left. reflexivity.
Qed.

Lemma upsert_rows_NoDup (rows tbl : list Pref.t) :
  List.NoDup (map key tbl) -> List.NoDup (map key (fold_left upsert_row rows tbl)).
Proof.
  revert tbl. induction rows as [|r rows IH]; simpl; intros tbl H; [exact H|].
  apply IH, upsert_row_NoDup, H.
Qed.

Lemma upsert_rows_lookup (rows tbl : list Pref.t) (i : nat) (old : Pref.t) :
  tbl !! i = Some old ->
  exists new,
    fold_left upsert_row rows tbl !! i = Some new
    /\ key new = key old
    /\ (In new rows \/ (new = old /\ ~ In (key old) (map key rows))).
Proof.
  revert tbl old. induction rows as [|r rows IH]; simpl; intros tbl old Hi.
  - exists old. split; [exact Hi|]. split; [reflexivity|]. right. split; [reflexivity|].
    intros [].
  - destruct (IH _ _ (upsert_row_lookup tbl r i old Hi)) as [new [Hnew [Hkey Hcase]]].
    exists new. split; [exact Hnew|].
    destruct (same_pair r old) eqn:Es.
    + apply same_pair_key in Es. split; [congruence|]. left.
      destruct Hcase as [Hin|[-> _]]; [right; exact Hin|left; reflexivity].
    + split; [exact Hkey|]. destruct Hcase as [Hin|[-> Hnot]]; [left; right; exact Hin|].
      right. split; [reflexivity|]. intros [Hk|Hin]; [|contradiction].
      assert (same_pair r old = true) by (apply same_pair_key; exact Hk). congruence.
Qed.

Lemma upsert_rows_In (rows tbl : list Pref.t) (row : Pref.t) :
  List.NoDup (map key rows) -> In row rows -> In row (fold_left upsert_row rows tbl).
Proof.
  revert tbl. induction rows as [|r rows IH]; simpl; intros tbl Hnd Hin; [contradiction|].
  inversion Hnd as [|x l Hnotin Hnd']; subst.
  destruct Hin as [->|Hin]; [|apply IH; assumption].
  pose proof (upsert_row_In tbl row) as H.
  apply list_elem_of_In, list_elem_of_lookup in H. destruct H as [i Hi].
  destruct (upsert_rows_lookup rows _ i row Hi) as [new [Hnew [Hkey Hcase]]].
  destruct Hcase as [Hin|[-> _]].
  - exfalso. apply Hnotin. rewrite <- Hkey. apply in_map. exact Hin.
  - apply list_elem_of_In, list_elem_of_lookup. eauto.
Qed.

Lemma preferencesData_keys_NoDup (rid : Z) (st : Session) :
  List.NoDup (map Chore.id (chores st)) ->
  List.NoDup (map key (preferencesData rid st)).
Proof.
  unfold preferencesData. rewrite map_map. cbn.
  induction (chores st) as [|c l IH]; simpl; intros H; [constructor|].
  inversion H as [|x l' Hn Hd]; subst. constructor; [|apply IH; exact Hd].
  intros Hin. apply Hn. apply in_map_iff in Hin. destruct Hin as [c' [Hk Hin]].
  injection Hk as Hid. rewrite <- Hid. apply in_map. exact Hin.
Qed.

Lemma Debounced_submit_updates_in_place
  (sc : Schema) (store : Store) (st : Session) (rid : Z) :
  pair_indexed sc = true ->
  truthy_id (roommateId st) = Some rid ->
  List.NoDup (map Chore.id (chores st)) ->
  List.NoDup (map key (preferences_tbl store)) ->
  let c := submit (serveStore sc) Debounced st (store, []) in
  let tbl' := preferences_tbl (backend c).1 in
  succeeded c
  /\ List.NoDup (map key tbl')
  /\ (forall i old, preferences_tbl store !! i = Some old ->
        exists new, tbl' !! i = Some new /\ key new = key old
          /\ (In new (preferencesData rid st)
              \/ (new = old /\ ~ In (key old) (map key (preferencesData rid st)))))
  /\ (forall row, In row (preferencesData rid st) -> In row tbl').
Proof.
  intros Hidx Hid Hchores Htbl.
  pose proof (preferencesData_keys_NoDup rid st Hchores) as Hrows.
  unfold submit, handleSubmit, submitBody, getOrCreate, succeeded.
  rewrite Hid. cbn. unfold upsert, onConflict. rewrite Hidx. cbn.
  unfold merge_on_pair.
  rewrite (proj2 (distinct_pairs_NoDup _) Hrows). cbn.
  split; [left; reflexivity|].
  split; [apply upsert_rows_NoDup, Htbl|].
  split; [intros i old; apply upsert_rows_lookup|].
  intros row. apply upsert_rows_In, Hrows.
Qed.

(* ===================================================================== *)
(** ** Identity creation at submit time *)
(* ===================================================================== *)

Lemma existsb_named_filter (name : string) (tbl : list Roommate.t) :
  filter (fun r => named name r = true) tbl = [] -> existsb (named name) tbl = false.
Proof.
  induction tbl as [|r tbl IH]; simpl; [reflexivity|].
  rewrite filter_cons. destruct (decide (named name r = true)) as [E|E].
  - discriminate.
  - intros H. apply not_true_is_false in E. rewrite E. exact (IH H).
Qed.

Lemma Debounced_getOrCreate_reuses
  (sc : Schema) (store : Store) (st : Session) (c1 : Cfg Remote) (rid : Z) :
  truthy_id (roommateId st) = None ->
  exec (serveStore sc) (getOrCreate Debounced st) (start st (store, []))
  = (c1, inr rid) ->
  exists c2,
    exec (serveStore sc) (getOrCreate Debounced st) (start st (backend c1))
    = (c2, inr rid)
    /\ (backend c2).1 = (backend c1).1
    /\ (length (roommates_tbl (backend c2).1) <= S (length (roommates_tbl store)))%nat
    /\ map Roommate.id
         (filter (fun r => named (trim (roommateName st)) r = true)
                 (roommates_tbl (backend c2).1)) = [rid].
Proof.
  intros Hid. unfold getOrCreate. rewrite Hid. cbn.
  destruct (filter _ (roommates_tbl store)) as [|r [|r' l]] eqn:Hf; cbn.
  - rewrite (existsb_named_filter _ _ Hf), andb_false_r. cbn.
    intros H. inversion H; subst; clear H. cbn.
    rewrite filter_app, Hf. cbn.
    destruct (decide _) as [_|E]; [|exfalso; apply E, String.eqb_refl]. cbn.
    eexists. split; [reflexivity|]. cbn. rewrite filter_app, Hf. cbn.
    destruct (decide _) as [_|E]; [|exfalso; apply E, String.eqb_refl]. cbn.
    split; [reflexivity|]. split; [rewrite length_app; cbn; lia|reflexivity].
  - intros H. inversion H; subst; clear H. cbn. rewrite Hf. cbn.
    eexists. split; [reflexivity|]. cbn. rewrite Hf. cbn.
    split; [reflexivity|]. split; [lia|reflexivity].
  - intros H. inversion H.
Qed.

(** C2 (page.js).  The identity part of page.js's submit, run twice in
    sequence with the identity unresolved both times (the name typed and
    the form submitted without leaving the field), inserts twice: the two
    runs return the ids 1 and 2 and the table holds two rows named
    "Alex"; the second run sends the insert and nothing before it.  With a
    unique constraint on the name the second run fails instead of reusing
    the row. *)
Theorem OnBlur_getOrCreate_inserts_blindly :
  let first :=
    exec (serveStore loose) (getOrCreate OnBlur alexTyped)
         (start alexTyped (emptyStore, [])) in
  let second :=
    exec (serveStore loose) (getOrCreate OnBlur alexTyped)
         (start alexTyped (backend first.1)) in
  first.2 = inr 1
  /\ second.2 = inr 2
  /\ requests second.1 = [InsertRoommate "Alex"]
  /\ roommates_tbl (backend second.1).1
     = [Roommate.mk 1 "Alex"; Roommate.mk 2 "Alex"]
  /\ (exec (serveStore strict) (getOrCreate OnBlur alexTyped)
           (start alexTyped (backend first.1))).2 = inl uniqueViolation.
Proof. vm_compute. repeat split. Qed.

(** The same two runs in App.js return the id 1 twice and leave one row. *)
Example Debounced_getOrCreate_twice :
  let first :=
    exec (serveStore loose) (getOrCreate Debounced alexTyped)
         (start alexTyped (emptyStore, [])) in
  let second :=
    exec (serveStore loose) (getOrCreate Debounced alexTyped)
         (start alexTyped (backend first.1)) in
  first.2 = inr 1
  /\ second.2 = inr 1
  /\ roommates_tbl (backend second.1).1 = [Roommate.mk 1 "Alex"].
Proof. vm_compute. repeat split. Qed.

(* ===================================================================== *)
(** ** The preference write *)
(* ===================================================================== *)

(** C3 (page.js).  page.js sends its rows with no conflict target.  On
    preferences keyed by a generated column, the submit of scenario 2
    (Alex, id 7, stored (7, 1, 2), chore 1 changed to 5) adds a second
    row for (7, 1) next to the stored one; with a unique constraint on
    (roommate_id, chore_id) it shows the failure notice and the table is
    unchanged. *)
Theorem OnBlur_submit_duplicates_rows :
  requests (submit (serveStore loose) OnBlur alexResolved (household, []))
  = [UpsertPreferences [Pref.mk 7 1 (Num 5); Pref.mk 7 2 (Num 1)] None]
  /\ preferences_tbl
       (backend (submit (serveStore loose) OnBlur alexResolved (household, []))).1
     = [Pref.mk 7 1 (Num 2); Pref.mk 8 1 (Num 5);
        Pref.mk 7 1 (Num 5); Pref.mk 7 2 (Num 1)]
  /\ failed (submit (serveStore strict) OnBlur alexResolved (household, []))
  /\ preferences_tbl
       (backend (submit (serveStore strict) OnBlur alexResolved (household, []))).1
     = preferences_tbl household.
Proof.
  split; [vm_compute; reflexivity|]. split; [vm_compute; reflexivity|].
  split; [vm_compute; right; left; reflexivity|]. vm_compute. reflexivity.
Qed.

(** Scenario 2 in App.js: the stored row of (7, 1) now has score 5, in
    its place, and the row of (7, 2) is new. *)
Example Debounced_submit_scenario_update :
  succeeded (submit (serveStore strict) Debounced alexResolved (household, []))
  /\ preferences_tbl
       (backend (submit (serveStore strict) Debounced alexResolved (household, []))).1
     = [Pref.mk 7 1 (Num 5); Pref.mk 8 1 (Num 5); Pref.mk 7 2 (Num 1)].
Proof. split; [vm_compute; left; reflexivity|vm_compute; reflexivity]. Qed.

(** Scenario 1 in App.js: "Alex" is created, then (Alex, 1, 4) and
    (Alex, 2, 1) are written. *)
Example Debounced_submit_scenario_create :
  requests (submit (serveStore strict) Debounced alexTyped (emptyStore, []))
  = [SelectRoommateIdMaybeSingle "Alex"; InsertRoommate "Alex";
     UpsertPreferences [Pref.mk 1 1 (Num 4); Pref.mk 1 2 (Num 1)]
                       (Some "roommate_id,chore_id")]
  /\ roommates_tbl
       (backend (submit (serveStore strict) Debounced alexTyped (emptyStore, []))).1
     = [Roommate.mk 1 "Alex"]
  /\ preferences_tbl
       (backend (submit (serveStore strict) Debounced alexTyped (emptyStore, []))).1
     = [Pref.mk 1 1 (Num 4); Pref.mk 1 2 (Num 1)].
Proof. vm_compute. repeat split. Qed.

(* ===================================================================== *)
(** ** What the code does not guarantee *)
(* ===================================================================== *)

(** C4, as stated, fails.  Alex (id 7, chore 1 stored as 2) is typed and
    the timer fires; before the lookup is answered the name is changed to
    Bob (id 8, chore 1 stored as 5), the timer fires again and Bob's
    resolution is answered in full: the page shows Bob, id 8, score 5.
    Then the two answers of the superseded resolution for Alex arrive:
    the page still shows the name Bob, with the identity 7 and the score 2
    of Alex.  And with nothing interleaved: Alex is resolved (id 7) and
    chore 1 was edited to 4 and not saved; the name is changed to Bob,
    whose lookup succeeds and whose preference fetch fails: the page
    shows Bob's identity 8 with Alex's unsaved score 4. *)
Lemma superseded_resolution_overwrites :
  (exists (w w' w'' : World Remote) (t : Task),
    run (serveStore strict) Debounced (mounted Debounced (household, []))
        [Response 0%nat; TypeName "Alex"; TimerFires; TypeName "Bob";
         TimerFires; Response 1%nat; Response 1%nat] = Some w
    /\ roommateName (ui w) = "Bob"
    /\ roommateId (ui w) = Some 8
    /\ selectValue (ui w) 1 = Num 5
    /\ tasks w !! 0%nat = Some t
    /\ kind t = ResolveTask 0 "Alex"
    /\ superseded w t
    /\ step (serveStore strict) Debounced w (Response 0%nat) = Some w'
    /\ roommateId (ui w') = Some 7
    /\ step (serveStore strict) Debounced w' (Response 0%nat) = Some w''
    /\ roommateName (ui w'') = "Bob"
    /\ roommateId (ui w'') = Some 7
    /\ selectValue (ui w'') 1 = Num 2)
  /\ (let edited := mkSession "Bob" (Some 7) catalog {[1 := Num 4]} false in
      let c := settle (serveStore strict) OnBlur "Bob" edited
                      (household, [None; Some fetchFailed]) in
      roommateId (session c) = Some 8
      /\ selectValue (session c) 1 = Num 4
      /\ console c = [ConsoleError "Error fetching preferences:" fetchFailed]).
Proof.
  split; [|vm_compute; repeat split].
  eexists. eexists. eexists. eexists.
  split; [vm_compute; reflexivity|].
  split; [reflexivity|]. split; [reflexivity|]. split; [reflexivity|].
  split; [reflexivity|]. split; [reflexivity|].
  split; [vm_compute; lia|].
  split; [vm_compute; reflexivity|]. split; [reflexivity|].
  split; [vm_compute; reflexivity|].
  split; [reflexivity|]. split; reflexivity.
Qed.


(** C6, as stated, fails.  Alex is looked up and found, and the
    preference fetch fails: the error is logged and the resolved identity,
    none before, is now 7. *)
Lemma failed_preference_fetch_sets_identity :
  let st := mkSession "Alex" None catalog ∅ false in
  let c := settle (serveStore strict) Debounced "Alex" st
                  (household, [None; Some fetchFailed]) in
  console c = [ConsoleError "Error fetching preferences:" fetchFailed]
  /\ roommateId st = None
  /\ roommateId (session c) = Some 7.
Proof. vm_compute. repeat split. Qed.

(** page.js on a lookup that fails for another reason than PGRST116: the
    error is logged and the resolved identity and the preference map are
    cleared all the same. *)
Example OnBlur_lookup_error_clears :
  let c := settle (serveStore strict) OnBlur "Alex" alexResolved
                  (household, [Some fetchFailed]) in
  console c = [ConsoleError "Error fetching roommate:" fetchFailed]
  /\ roommateId (session c) = None
  /\ preferences (session c) = ∅.
Proof. vm_compute. repeat split. Qed.

(* ===================================================================== *)
(** ** Instances *)
(* ===================================================================== *)

(** Scenario 1: the first submit of "Alex" succeeds and writes the two
    rows (1, 1, 4) and (1, 2, 1), one per chore of the catalog. *)
Lemma submit_writes_one_row_per_chore_witness :
  let c := submit (serveStore strict) Debounced alexTyped (emptyStore, []) in
  succeeded c
  /\ upserted (requests c) = [Pref.mk 1 1 (Num 4); Pref.mk 1 2 (Num 1)]
  /\ length (upserted (requests c)) = length catalog.
Proof.
  intros c.
  assert (H : succeeded c) by (vm_compute; left; reflexivity).
  subst c. split; [exact H|].
  destruct (submit_writes_one_row_per_chore
              (serveStore strict) Debounced alexTyped (emptyStore, []) H)
    as (rid & Hrid & _ & Hrows & Hlen & _).
  split; [|exact Hlen].
  vm_compute in Hrid. injection Hrid as <-. rewrite Hrows. reflexivity.
Defined.

(** An entry 0 for chore 1 is shown as 1, the submit sends what it sends
    with the entry deleted, and the row (7, 1, 1) is among the rows it
    sends. *)
Lemma falsy_entry_defaults_to_one_witness :
  let st := mkSession "Alex" (Some 7) catalog {[1 := Num 0]} false in
  preferences st !! 1 = Some (Num 0)
  /\ truthy (Num 0) = false
  /\ selectValue st 1 = Num 1
  /\ requests (submit (serveStore strict) Debounced
                      (setPreferences (delete 1) st) (household, []))
     = requests (submit (serveStore strict) Debounced st (household, []))
  /\ In 1 (map Chore.id (chores st))
  /\ truthy_id (roommateId st) = Some 7
  /\ In (Pref.mk 7 1 (Num 1))
        (upserted (requests (submit (serveStore strict) Debounced st
                                    (household, [])))).
Proof.
  intros st.
  assert (H1 : preferences st !! 1 = Some (Num 0)) by reflexivity.
  assert (H2 : truthy (Num 0) = false) by reflexivity.
  assert (H3 : In 1 (map Chore.id (chores st))) by (left; reflexivity).
  assert (H4 : truthy_id (roommateId st) = Some 7) by reflexivity.
  split; [exact H1|]. split; [exact H2|].
  destruct (falsy_entry_defaults_to_one
              (serveStore strict) Debounced st (household, []) 1 (Num 0) H1 H2)
    as (Hshown & _ & _ & Hreq & Hsent).
  split; [exact Hshown|]. split; [exact Hreq|].
  split; [exact H3|]. split; [exact H4|].
  exact (proj1 (Hsent H3) 7 H4).
Defined.

(** Setting chore 1 to 3 leaves chore 2 and the resolved identity as they
    were. *)
Lemma preference_change_frame_witness :
  let c := (exec (serveStore strict) (handlePreferenceChange 1 (Num 3))
                 (start alexTyped (emptyStore, []))).1 in
  2 <> 1
  /\ preferences (session c) !! 1 = Some (Num 3)
  /\ preferences (session c) !! 2 = preferences alexTyped !! 2
  /\ roommateId (session c) = roommateId alexTyped.
Proof.
  intros c.
  assert (Hne : 2 <> 1) by lia.
  subst c. split; [exact Hne|].
  destruct (preference_change_frame
              (serveStore strict) 1 (Num 3) alexTyped (emptyStore, []))
    as (Hset & Hother & Hid & _).
  split; [exact Hset|]. split; [exact (Hother 2 Hne)|exact Hid].
Defined.

(** Scenario 3: the name field holds blanks only; settling it sends
    nothing and clears the identity and the preferences of Alex. *)
Lemma empty_name_settles_without_lookup_witness :
  let c := settle (serveStore strict) OnBlur "  " alexResolved (household, []) in
  trim "  " = ""
  /\ requests c = []
  /\ roommateId (session c) = None
  /\ preferences (session c) = ∅.
Proof.
  intros c.
  assert (H : trim "  " = "") by reflexivity.
  subst c. split; [exact H|].
  destruct (empty_name_settles_without_lookup
              (serveStore strict) OnBlur "  " alexResolved (household, []) H)
    as (Hreq & _ & _ & Hid & Hprefs & _).
  split; [exact Hreq|]. split; [exact Hid|exact Hprefs].
Defined.


(** Alex is found and the preference fetch fails: the identity is 7, the
    error is logged and nothing else changes. *)
Lemma resolution_outcomes_witness :
  let st := mkSession "Alex" None catalog ∅ false in
  let c := settle (serveStore strict) Debounced "Alex" st
                  (household, [None; Some fetchFailed]) in
  trim "Alex" <> ""
  /\ serveStore strict (household, [None; Some fetchFailed])
                (SelectRoommateSingle (trim "Alex"))
     = ((household, [Some fetchFailed]), Data (Roommate.mk 7 "Alex"))
  /\ session c = setRoommateId (Some 7) st
  /\ console c = [ConsoleError "Error fetching preferences:" fetchFailed].
Proof.
  intros st c.
  assert (H1 : trim "Alex" <> "") by (vm_compute; discriminate).
  assert (H2 : serveStore strict (household, [None; Some fetchFailed])
                          (SelectRoommateSingle (trim "Alex"))
               = ((household, [Some fetchFailed]), Data (Roommate.mk 7 "Alex")))
    by reflexivity.
  split; [exact H1|]. split; [exact H2|].
  exact (resolution_outcomes
           (serveStore strict) Debounced "Alex" st
           (household, [None; Some fetchFailed]) (household, [Some fetchFailed])
           (Data (Roommate.mk 7 "Alex")) H1 H2
           (household, []) (Failed fetchFailed) eq_refl).
Defined.

(** After the catalog has loaded, "Alex" is typed and the form is
    submitted: one submit is in flight and a second click starts none. *)
Lemma one_submit_at_a_time_witness :
  exists w : World Remote,
    run (serveStore strict) Debounced (mounted Debounced (household, []))
        [Response 0%nat; TypeName "Alex"; ClickSubmit] = Some w
    /\ (submitsInFlight w <= 1)%nat
    /\ (submitDisabled (ui w) = true ->
        step (serveStore strict) Debounced w ClickSubmit = None).
Proof.
  eexists. split; [vm_compute; reflexivity|].
  match goal with
  | |- (submitsInFlight ?w <= 1)%nat /\ _ =>
      destruct (one_submit_at_a_time
                  (serveStore strict) Debounced (household, [])
                  [Response 0%nat; TypeName "Alex"; ClickSubmit] w eq_refl)
        as (Hone & _ & Hblocked & _)
  end.
  split; [exact Hone|exact Hblocked].
Defined.

(** Two edits of the name in a row: the pending timer is the one of
    "Alex".  And Bob resolved from Alex's edited state with both reads
    answered: identity 8 and Bob's stored score 5, nothing of Alex's. *)
Lemma resolution_of_current_name_witness :
  exists w : World Remote,
    run (serveStore strict) Debounced (mounted Debounced (household, []))
        [TypeName "Al"; TypeName "Alex"] = Some w
    /\ (forall name, debounceRef w = Some name -> name = roommateName (ui w))
    /\ trim "Bob" <> ""
    /\ (let edited := mkSession "Bob" (Some 7) catalog {[1 := Num 4]} false in
        let c := settle (serveStore strict) Debounced "Bob" edited
                        (household, []) in
        roommateId (session c) = Some 8
        /\ preferences (session c) = preferencesMap [(1, Num 5)]).
Proof.
  eexists. split; [vm_compute; reflexivity|].
  assert (Hname : trim "Bob" <> "") by (vm_compute; discriminate).
  match goal with
  | |- (forall name, debounceRef ?w = _ -> _) /\ _ =>
      destruct (resolution_of_current_name
                  (serveStore strict) (household, [])
                  [TypeName "Al"; TypeName "Alex"] w eq_refl)
        as (Href & _ & Hsettle)
  end.
  split; [exact Href|]. split; [exact Hname|].
  exact (Hsettle Debounced "Bob"
           (mkSession "Bob" (Some 7) catalog {[1 := Num 4]} false)
           (household, []) (household, [])
           (Data (Roommate.mk 8 "Bob")) Hname eq_refl
           (household, []) (Data [(1, Num 5)]) eq_refl).
Defined.

(* ===================================================================== *)
(** ** More on the handlers *)
(* ===================================================================== *)

Lemma fold_insert_other (rows : list (Z * score)) (m : gmap Z score) (c : Z) :
  ~ In c (map fst rows) ->
  fold_left (fun m pref => <[pref.1 := pref.2]> m) rows m !! c = m !! c.
Proof.
  revert m. induction rows as [|[c' s] rows IH]; simpl; intros m Hnot.
  - reflexivity.
  - rewrite IH by tauto. apply lookup_insert_ne. tauto.
Qed.

(** X1.  The map built from the fetched preference rows gives a chore the
    score of the last row that names it, and nothing for a chore that no
    row names. *)
Theorem preferencesMap_last_row_wins (rows : list (Z * score)) (c : Z) :
  (~ In c (map fst rows) -> preferencesMap rows !! c = None)
  /\ (forall before s after,
        rows = before ++ (c, s) :: after ->
        ~ In c (map fst after) ->
        preferencesMap rows !! c = Some s).
Proof.
  unfold preferencesMap. split.
  - intros Hnot. rewrite fold_insert_other by exact Hnot. apply lookup_empty.
  - intros before s after -> Hnot. rewrite fold_left_app. simpl.
    rewrite fold_insert_other by exact Hnot. apply lookup_insert_eq.
Qed.

Lemma or_default_truthy (x : option score) : truthy (or_default x) = true.
Proof.
  destruct x as [val|]; simpl; [|reflexivity].
  destruct (truthy val) eqn:E; [exact E|reflexivity].
Qed.

Lemma preferencesData_truthy (rid : Z) (st : Session) :
  Forall (fun row => truthy (Pref.preference_score row) = true)
         (preferencesData rid st).
Proof.
  unfold preferencesData. apply Forall_forall. intros row Hin.
  apply list_elem_of_In, in_map_iff in Hin. destruct Hin as [chore [<- _]].
  apply or_default_truthy.
Qed.

Section MoreHandlers.
Context {B : Type}.
Variable serve : B -> forall rq : Req, B * Resp (Payload rq).

Lemma submit_upserted (v : Variant) (st : Session) (b : B) :
  upserted (requests (submit serve v st b)) = []
  \/ exists rid, upserted (requests (submit serve v st b))
                 = preferencesData rid st.
Proof.
  unfold submit, handleSubmit, submitBody, getOrCreate.
  destruct (truthy_id (roommateId st)) as [rid|]; [|destruct v]; walk serve.
  all: first [ left; reflexivity
             | right; eexists; apply app_nil_r ].
Qed.

(** X2.  No submit ever writes a falsy score (0, NaN or null): every row
    sent for upsert carries a truthy score. *)
Theorem submit_never_writes_falsy_score (v : Variant) (st : Session) (b : B) :
  Forall (fun row => truthy (Pref.preference_score row) = true)
         (upserted (requests (submit serve v st b))).
Proof.
  destruct (submit_upserted v st b) as [->|[rid ->]].
  - constructor.
  - apply preferencesData_truthy.
Qed.

(** X3.  With a resolved identity a submit sends exactly one request, the
    upsert of that identity's rows, whatever its outcome: it neither looks
    a roommate up nor inserts one, and it leaves the resolved identity and
    the preference map as they were. *)
Theorem resolved_submit_sends_only_upsert
  (v : Variant) (st : Session) (b : B) (rid : Z) :
  truthy_id (roommateId st) = Some rid ->
  requests (submit serve v st b)
  = [UpsertPreferences (preferencesData rid st) (onConflict v)]
  /\ roommateId (session (submit serve v st b)) = roommateId st
  /\ preferences (session (submit serve v st b)) = preferences st.
Proof.
  intros Hid. unfold submit, handleSubmit, submitBody, getOrCreate.
  rewrite Hid. walk serve; repeat split.
Qed.

(** X4.  App.js inserts a roommate only when the identity is unresolved
    and its lookup of the trimmed name has just answered that there is no
    such row; the name inserted is the trimmed name. *)
Theorem Debounced_insert_follows_empty_lookup (st : Session) (b : B) (n : string) :
  In (InsertRoommate n) (requests (submit serve Debounced st b)) ->
  n = trim (roommateName st)
  /\ truthy_id (roommateId st) = None
  /\ exists b1,
       serve b (SelectRoommateIdMaybeSingle (trim (roommateName st)))
       = (b1, Data None).
Proof.
  unfold submit, handleSubmit, submitBody, getOrCreate.
  destruct (truthy_id (roommateId st)) as [rid|]; walk serve.
  all: intros Hin; repeat (destruct Hin as [Hin|Hin]; try discriminate Hin);
    try contradiction.
  all: injection Hin as <-.
  all: split; [reflexivity|]; split; [reflexivity|]; eexists; reflexivity.
Qed.

(** X5.  Settling the name only reads: it sends nothing, or the lookup of
    the trimmed name, or that lookup followed by the preference fetch of
    the roommate it found, whose id is then the resolved identity.  It
    never alerts, and it leaves the name, the catalog and the pending flag
    as they were. *)
Theorem resolution_only_reads (v : Variant) (name : string) (st : Session) (b : B) :
  (requests (settle serve v name st b) = []
   \/ requests (settle serve v name st b) = [SelectRoommateSingle (trim name)]
   \/ exists rid,
        requests (settle serve v name st b)
        = [SelectRoommateSingle (trim name); SelectPreferences rid]
        /\ roommateId (session (settle serve v name st b)) = Some rid)
  /\ roommateName (session (settle serve v name st b)) = roommateName st
  /\ chores (session (settle serve v name st b)) = chores st
  /\ loading (session (settle serve v name st b)) = loading st
  /\ (forall text, ~ In (Alert text) (console (settle serve v name st b))).
Proof.
  unfold settle, settleName, fetchRoommateData.
  destruct (negb (is_empty (trim name))); [destruct v|];
    rewrite ?trim_idempotent; walk serve.
  all: repeat match goal with
         | |- context [if ?c then _ else _] => destruct c; cbn
         end.
  all: split; [eauto 6|].
  all: repeat (split; [reflexivity|]).
  all: intros text Hin; repeat (destruct Hin as [Hin|Hin]; try discriminate Hin);
    contradiction.
Qed.

(** X6.  Every submit, once it has run to its end, has shown exactly one
    notice: the success notice and nothing else, after an upsert that the
    backend accepted, or one logged error followed by the failure notice. *)
Theorem submit_shows_one_notice (v : Variant) (st : Session) (b : B) :
  (console (submit serve v st b) = [savedNotice]
   /\ exists reqs rows b0,
        requests (submit serve v st b)
        = reqs ++ [UpsertPreferences rows (onConflict v)]
        /\ serve b0 (UpsertPreferences rows (onConflict v))
           = (backend (submit serve v st b), Data tt))
  \/ (exists error,
        console (submit serve v st b)
        = [ConsoleError "Error:" error; failedNotice]).
Proof.
  unfold submit, handleSubmit, submitBody, getOrCreate.
  destruct (truthy_id (roommateId st)) as [rid|]; [|destruct v]; walk serve.
  all: repeat match goal with d : unit |- _ => destruct d end.
  all: first
    [ right; eexists; reflexivity
    | left; split; [reflexivity|];
      eexists; eexists; eexists;
      split;
        [first [ exact (eq_refl : _ = [] ++ [_])
               | exact (eq_refl : _ = [_] ++ [_])
               | exact (eq_refl : _ = [_; _] ++ [_]) ]
        |cbn; eassumption] ].
Qed.

(** X7.  A submit from a state whose catalog is empty (the catalog has
    not arrived, or its fetch failed) writes no preference row; it still
    resolves or creates the identity, and when it succeeds the upsert it
    sent was the empty batch. *)
Theorem empty_catalog_submit_writes_nothing (v : Variant) (st : Session) (b : B) :
  chores st = [] ->
  upserted (requests (submit serve v st b)) = []
  /\ (succeeded (submit serve v st b) ->
      exists reqs,
        requests (submit serve v st b)
        = reqs ++ [UpsertPreferences [] (onConflict v)]).
Proof.
  intros Hempty.
  assert (Hrows : forall rid, preferencesData rid st = []).
  { intros rid. unfold preferencesData. rewrite Hempty. reflexivity. }
  unfold submit, handleSubmit, submitBody, getOrCreate, succeeded.
  destruct (truthy_id (roommateId st)) as [rid|]; [|destruct v];
    cbn; repeat (rewrite ?Hrows; answer serve; cbn).
  all: split; [reflexivity|].
  all: try (intros [H|[H|[]]]; discriminate H).
  all: intros _; eexists;
    first [ exact (eq_refl : _ = [] ++ [_])
          | exact (eq_refl : _ = [_] ++ [_])
          | exact (eq_refl : _ = [_; _] ++ [_]) ].
Qed.

End MoreHandlers.

(* ===================================================================== *)
(** ** More on the event loop *)
(* ===================================================================== *)

Section MoreLoop.
Context {B : Type}.
Variable serve : B -> forall rq : Req, B * Resp (Payload rq).

Lemma spawn_bookkeeping (k : TaskKind) (p : Prog unit) (w : World B) :
  debounceRef (spawn k p w) = debounceRef w
  /\ resolutions (spawn k p w) = resolutions w.
Proof.
  unfold spawn. destruct (advance p (ui w) (printed w)) as [[s out] parked].
  split; reflexivity.
Qed.

Lemma step_bookkeeping (v : Variant) (w : World B) (e : Event) (w' : World B) :
  step serve v w e = Some w' ->
  match e with
  | TypeName _ | TimerFires | Blur => True
  | _ => debounceRef w' = debounceRef w /\ resolutions w' = resolutions w
  end.
Proof.
  destruct e as [value| | |choreId value| |i]; simpl; try (intros _; exact I).
  - destruct (_ && _ && _); [|discriminate]. intros H. inversion H; subst.
    split; reflexivity.
  - destruct (submitDisabled (ui w)); [discriminate|]. intros H.
    inversion H; subst. apply spawn_bookkeeping.
  - destruct (tasks w !! i) as [[k [a|rq cont|u p|o p]]|]; try discriminate.
    destruct (serve (remote w) rq) as [b' r].
    destruct (advance (cont r) (ui w) (printed w)) as [[s out] parked].
    intros H. inversion H; subst. split; reflexivity.
Qed.

Lemma Debounced_step_resolutions (w : World B) (e : Event) (w' : World B) :
  step serve Debounced w e = Some w' ->
  (resolutions w' + pendingTimers w'
   <= resolutions w + pendingTimers w + (if is_edit e then 1 else 0))%nat.
Proof.
  intros Hstep. pose proof (step_bookkeeping _ _ _ _ Hstep) as Hb.
  destruct e as [value| | |choreId value| |i]; simpl in *.
  4-6: destruct Hb as [Hd Hr]; unfold pendingTimers; rewrite Hd, Hr; lia.
  - destruct (decide (value = roommateName (ui w))); inversion Hstep; subst.
    + lia.
    + unfold pendingTimers. cbn. destruct (debounceRef w); lia.
  - destruct (debounceRef w) as [name|] eqn:Hd; [|discriminate].
    inversion Hstep; subst. unfold startResolution, pendingTimers. cbn.
    match goal with |- context [debounceRef (spawn ?k ?p ?x)] =>
      destruct (spawn_bookkeeping k p x) as [-> _] end.
    cbn. rewrite Hd. lia.
  - discriminate.
Qed.

(** X8.  In App.js the debounce bounds the lookups: after any events the
    resolutions started so far, plus the timer still pending if there is
    one, are at most one more than the edits of the name (the one for the
    timer armed at mount). *)
Theorem debounce_bounds_resolutions (b0 : B) (es : list Event) (w : World B) :
  run serve Debounced (mounted Debounced b0) es = Some w ->
  (resolutions w + pendingTimers w <= 1 + edits es)%nat.
Proof.
  assert (Hgen : forall es w0 w,
             run serve Debounced w0 es = Some w ->
             (resolutions w + pendingTimers w
              <= resolutions w0 + pendingTimers w0 + edits es)%nat).
  { clear. intros es. induction es as [|e es IH]; simpl; intros w0 w Hrun.
    - inversion Hrun; subst. unfold edits. simpl. lia.
    - destruct (step serve Debounced w0 e) as [w1|] eqn:E; [|discriminate].
      pose proof (Debounced_step_resolutions _ _ _ E) as H1.
      pose proof (IH _ _ Hrun) as H2. unfold edits in *. simpl.
      destruct (is_edit e); simpl in *; lia. }
  intros Hrun. pose proof (Hgen _ _ _ Hrun) as H.
  unfold mounted in H.
  destruct (spawn_bookkeeping ChoresTask fetchChores
              (mkWorld initialSession (Some "") [] b0 [] 0)) as [Hd Hr].
  unfold pendingTimers in H at 2. rewrite Hd, Hr in H. cbn in H. lia.
Qed.

(** X9.  In page.js every blur of the name field runs the settle
    handler, whether the name changed or not and whatever is resolved
    already.  For a name that does not trim to the empty string it parks
    one more lookup of the trimmed name and leaves the screen as it is
    until the answer arrives; for a blank name it parks nothing and clears
    the identity and the preferences at once. *)
Theorem OnBlur_blur_always_looks_up (w : World B) :
  (trim (roommateName (ui w)) <> "" ->
   exists cont,
     step serve OnBlur w Blur
     = Some (mkWorld (ui w) (debounceRef w)
               (tasks w
                ++ [mkTask (ResolveTask (resolutions w) (roommateName (ui w)))
                           (Await (SelectRoommateSingle
                                     (trim (roommateName (ui w)))) cont)])
               (remote w) (printed w) (S (resolutions w))))
  /\ (trim (roommateName (ui w)) = "" ->
      step serve OnBlur w Blur
      = Some (mkWorld (cleared (ui w)) (debounceRef w) (tasks w)
                      (remote w) (printed w) (S (resolutions w)))).
Proof.
  split.
  - intros Hname. cbn. unfold startResolution, spawn, settleName.
    destruct (is_empty (trim (roommateName (ui w)))) eqn:E.
    + apply is_empty_true in E. contradiction.
    + cbn. eexists. reflexivity.
  - intros Hname. cbn. unfold startResolution, spawn, settleName.
    rewrite Hname. cbn. reflexivity.
Qed.

Lemma namesInv_spawn (k : TaskKind) (p : Prog unit) (w : World B) :
  keeps roommateName p -> namesInv w ->
  namesInv (spawn k p w)
  /\ roommateName (ui (spawn k p w)) = roommateName (ui w).
Proof.
  intros Hp Hall. unfold spawn.
  destruct (advance p (ui w) (printed w)) as [[s out] parked] eqn:Hadv.
  destruct (advance_keeps roommateName p Hp _ _ _ _ _ Hadv) as [Hn Hparked].
  unfold namesInv. cbn. split; [|exact Hn].
  destruct parked as [p'|]; [|exact Hall].
  apply Forall_app. split; [exact Hall|]. constructor; [|constructor].
  apply Hparked. reflexivity.
Qed.

Lemma namesInv_step (v : Variant) (w : World B) (e : Event) (w' : World B) :
  namesInv w -> step serve v w e = Some w' ->
  namesInv w'
  /\ roommateName (ui w')
     = match e with TypeName value => value | _ => roommateName (ui w) end.
Proof.
  intros Hinv Hstep. destruct e as [value| | |choreId value| |i]; simpl in Hstep.
  - destruct (decide (value = roommateName (ui w))) as [->|]; inversion Hstep; subst;
      split; first [exact Hinv|reflexivity].
  - destruct v; [|discriminate].
    destruct (debounceRef w) as [name|]; [|discriminate].
    inversion Hstep; subst. unfold startResolution.
    match goal with |- namesInv (mkWorld (ui ?x) _ _ _ _ _) /\ _ =>
      assert (H : namesInv x /\ roommateName (ui x) = roommateName (ui w)) end.
    { apply (namesInv_spawn _ _ (mkWorld (ui w) None (tasks w) (remote w)
                                         (printed w) (resolutions w)));
        [apply keeps_settleName; reflexivity|exact Hinv]. }
    exact H.
  - destruct v; [discriminate|]. inversion Hstep; subst. unfold startResolution.
    match goal with |- namesInv (mkWorld (ui ?x) _ _ _ _ _) /\ _ =>
      assert (H : namesInv x /\ roommateName (ui x) = roommateName (ui w)) end.
    { apply namesInv_spawn; [apply keeps_settleName; reflexivity|exact Hinv]. }
    exact H.
  - destruct (_ && _ && _); [|discriminate]. inversion Hstep; subst.
    split; [exact Hinv|reflexivity].
  - destruct (submitDisabled (ui w)); [discriminate|].
    inversion Hstep; subst. apply namesInv_spawn; [|exact Hinv].
    apply keeps_handleSubmit; reflexivity.
  - destruct (tasks w !! i) as [[k [a|rq cont|u p|o p]]|] eqn:Hi; try discriminate.
    destruct (serve (remote w) rq) as [b' r].
    destruct (advance (cont r) (ui w) (printed w)) as [[s out] parked] eqn:Hadv.
    inversion Hstep; subst. clear Hstep.
    pose proof (Forall_lookup_1 _ _ _ _ Hinv Hi) as Hok. cbn in Hok.
    destruct (advance_keeps roommateName _ (Hok r) _ _ _ _ _ Hadv) as [Hn Hparked].
    unfold namesInv. cbn. split; [|exact Hn].
    destruct parked as [p'|].
    + apply Forall_insert; [exact Hinv|]. apply Hparked. reflexivity.
    + apply Forall_delete. exact Hinv.
Qed.

(** X10.  The name field is a controlled input that only the user
    writes: after any events, in either file, the name in the state is
    the value of the last edit (the empty string before the first), and
    no handler, timer or response has changed it. *)
Theorem name_is_last_typed (v : Variant) (b0 : B) (es : list Event) (w : World B) :
  run serve v (mounted v b0) es = Some w ->
  roommateName (ui w) = typed "" es.
Proof.
  assert (Hgen : forall es w0 w,
             namesInv w0 -> run serve v w0 es = Some w ->
             roommateName (ui w) = typed (roommateName (ui w0)) es).
  { clear. intros es. induction es as [|e es IH]; simpl; intros w0 w Hinv Hrun.
    - inversion Hrun; subst. reflexivity.
    - destruct (step serve v w0 e) as [w1|] eqn:E; [|discriminate].
      destruct (namesInv_step _ _ _ _ Hinv E) as [Hinv1 Hname].
      rewrite (IH _ _ Hinv1 Hrun), Hname. unfold typed. reflexivity. }
  intros Hrun.
  assert (H0 : namesInv (mounted v b0)
               /\ roommateName (ui (mounted v b0)) = "").
  { unfold mounted. apply namesInv_spawn.
    - apply keeps_fetchChores. reflexivity.
    - constructor. }
  destruct H0 as [Hinv0 Hname0].
  rewrite (Hgen _ _ _ Hinv0 Hrun), Hname0. reflexivity.
Qed.

(** X11.  The label of the submit button tells whether a save is
    pending: in every state the page can reach it reads "Saving..."
    exactly while a submit is in flight and "Submit" otherwise. *)
Theorem label_shows_pending_submit
  (v : Variant) (b0 : B) (es : list Event) (w : World B) :
  run serve v (mounted v b0) es = Some w ->
  submitLabel (ui w)
  = if (0 <? submitsInFlight w)%nat then "Saving..." else "Submit".
Proof.
  intros Hrun.
  assert (Hinv : pendingInv w).
  { revert Hrun. apply run_invariant.
    - apply pendingInv_mounted.
    - apply pendingInv_step. }
  destruct Hinv as [_ Hcount]. unfold submitLabel. rewrite Hcount.
  destruct (loading (ui w)); reflexivity.
Qed.


Lemma keepsCatalog_not_pending (l : list Task) :
  Forall keepsCatalog l ->
  existsb (fun t => match kind t with ChoresTask => true | _ => false end) l
  = false.
Proof.
  induction 1 as [|t l [Hk _] _ IH]; simpl; [reflexivity|].
  rewrite IH. destruct (kind t); try reflexivity. contradiction.
Qed.

Lemma catalog_spawn (k : TaskKind) (p : Prog unit) (w : World B) :
  k <> ChoresTask -> keeps chores p ->
  chores (ui (spawn k p w)) = chores (ui w)
  /\ exists l, tasks (spawn k p w) = tasks w ++ l /\ Forall keepsCatalog l.
Proof.
  intros Hk Hp. unfold spawn.
  destruct (advance p (ui w) (printed w)) as [[s out] parked] eqn:Hadv.
  destruct (advance_keeps chores p Hp _ _ _ _ _ Hadv) as [Hc Hparked].
  cbn. split; [exact Hc|]. destruct parked as [p'|].
  - eexists. split; [reflexivity|]. constructor; [|constructor].
    split; [exact Hk|]. apply Hparked. reflexivity.
  - exists []. split; [symmetry; apply app_nil_r|constructor].
Qed.

Lemma catalogInv_append (w w' : World B) (l : list Task) :
  chores (ui w') = chores (ui w) ->
  tasks w' = tasks w ++ l -> Forall keepsCatalog l ->
  catalogInv w -> catalogInv w'.
Proof.
  intros Hc Ht Hl [Hall|[others [Hw [Hall Hempty]]]].
  - left. rewrite Ht. apply Forall_app. split; assumption.
  - right. exists (others ++ l). rewrite Ht, Hw, Hc. split; [reflexivity|].
    split; [apply Forall_app; split; assumption|exact Hempty].
Qed.

Lemma catalogInv_respond (w : World B) (i : nat) (k : TaskKind) (rq : Req)
  (cont : Resp (Payload rq) -> Prog unit) (r : Resp (Payload rq))
  (s : Session) (out : list Output) (parked : option (Prog unit)) (b' : B) :
  Forall keepsCatalog (tasks w) ->
  tasks w !! i = Some (mkTask k (Await rq cont)) ->
  advance (cont r) (ui w) (printed w) = (s, out, parked) ->
  chores s = chores (ui w)
  /\ Forall keepsCatalog
       (match parked with
        | Some p' => <[i := mkTask k p']> (tasks w)
        | None => delete i (tasks w)
        end).
Proof.
  intros Hall Hi Hadv.
  destruct (Forall_lookup_1 _ _ _ _ Hall Hi) as [Hk Hok]. cbn in Hk, Hok.
  destruct (advance_keeps chores _ (Hok r) _ _ _ _ _ Hadv) as [Hc Hparked].
  split; [exact Hc|]. destruct parked as [p'|].
  - apply Forall_insert; [exact Hall|]. split; [exact Hk|].
    apply Hparked. reflexivity.
  - apply Forall_delete. exact Hall.
Qed.

Lemma catalog_step_loaded (v : Variant) (w : World B) (e : Event) (w' : World B) :
  Forall keepsCatalog (tasks w) -> step serve v w e = Some w' ->
  chores (ui w') = chores (ui w) /\ Forall keepsCatalog (tasks w').
Proof.
  intros Hall Hstep. destruct e as [value| | |choreId value| |i]; simpl in Hstep.
  - destruct (decide (value = roommateName (ui w))); inversion Hstep; subst;
      split; first [reflexivity|exact Hall].
  - destruct v; [|discriminate].
    destruct (debounceRef w) as [name|]; [|discriminate].
    inversion Hstep; subst. unfold startResolution.
    destruct (catalog_spawn (ResolveTask (resolutions w) name)
                (settleName Debounced name)
                (mkWorld (ui w) None (tasks w) (remote w) (printed w)
                         (resolutions w)))
      as [Hc [l [Ht Hl]]];
      [discriminate|apply keeps_settleName; reflexivity|].
    cbn in *. rewrite Ht. split; [exact Hc|]. apply Forall_app. split; assumption.
  - destruct v; [discriminate|]. inversion Hstep; subst. unfold startResolution.
    destruct (catalog_spawn (ResolveTask (resolutions w) (roommateName (ui w)))
                (settleName OnBlur (roommateName (ui w))) w)
      as [Hc [l [Ht Hl]]];
      [discriminate|apply keeps_settleName; reflexivity|].
    cbn in *. rewrite Ht. split; [exact Hc|]. apply Forall_app. split; assumption.
  - destruct (_ && _ && _); [|discriminate]. inversion Hstep; subst.
    split; [reflexivity|exact Hall].
  - destruct (submitDisabled (ui w)); [discriminate|].
    inversion Hstep; subst.
    destruct (catalog_spawn SubmitTask (handleSubmit v (ui w)) w)
      as [Hc [l [Ht Hl]]];
      [discriminate|apply keeps_handleSubmit; reflexivity|].
    rewrite Ht. split; [exact Hc|]. apply Forall_app. split; assumption.
  - destruct (tasks w !! i) as [[k [a|rq cont|u p|o p]]|] eqn:Hi; try discriminate.
    destruct (serve (remote w) rq) as [b' r].
    destruct (advance (cont r) (ui w) (printed w)) as [[s out] parked] eqn:Hadv.
    inversion Hstep; subst. clear Hstep. cbn.
    exact (catalogInv_respond w i k rq cont r s out parked b' Hall Hi Hadv).
Qed.

Lemma catalogInv_step (v : Variant) (w : World B) (e : Event) (w' : World B) :
  catalogInv w -> step serve v w e = Some w' -> catalogInv w'.
Proof.
  intros [Hall|[others [Hw [Hall Hempty]]]] Hstep.
  { left. exact (proj2 (catalog_step_loaded v w e w' Hall Hstep)). }
  assert (Hinv : catalogInv w).
  { right. exists others. repeat split; assumption. }
  destruct e as [value| | |choreId value| |i]; simpl in Hstep.
  - destruct (decide (value = roommateName (ui w))); inversion Hstep; subst;
      exact Hinv.
  - destruct v; [|discriminate].
    destruct (debounceRef w) as [name|]; [|discriminate].
    inversion Hstep; subst. unfold startResolution.
    destruct (catalog_spawn (ResolveTask (resolutions w) name)
                (settleName Debounced name)
                (mkWorld (ui w) None (tasks w) (remote w) (printed w)
                         (resolutions w)))
      as [Hc [l [Ht Hl]]];
      [discriminate|apply keeps_settleName; reflexivity|].
    exact (catalogInv_append w _ l Hc Ht Hl Hinv).
  - destruct v; [discriminate|]. inversion Hstep; subst. unfold startResolution.
    destruct (catalog_spawn (ResolveTask (resolutions w) (roommateName (ui w)))
                (settleName OnBlur (roommateName (ui w))) w)
      as [Hc [l [Ht Hl]]];
      [discriminate|apply keeps_settleName; reflexivity|].
    exact (catalogInv_append w _ l Hc Ht Hl Hinv).
  - destruct (_ && _ && _); [|discriminate]. inversion Hstep; subst.
    exact Hinv.
  - destruct (submitDisabled (ui w)); [discriminate|].
    inversion Hstep; subst.
    destruct (catalog_spawn SubmitTask (handleSubmit v (ui w)) w)
      as [Hc [l [Ht Hl]]];
      [discriminate|apply keeps_handleSubmit; reflexivity|].
    exact (catalogInv_append w _ l Hc Ht Hl Hinv).
  - rewrite Hw in Hstep. destruct i as [|j].
    + unfold fetchChores in Hstep. cbn in Hstep.
      destruct (serve (remote w) SelectChores) as [b' r].
      destruct r; cbn in Hstep; inversion Hstep; subst; left; exact Hall.
    + cbn in Hstep.
      destruct (others !! j) as [[k [a|rq cont|u p|o p]]|] eqn:Hi; try discriminate.
      destruct (serve (remote w) rq) as [b' r].
      destruct (advance (cont r) (ui w) (printed w)) as [[s out] parked] eqn:Hadv.
      destruct (Forall_lookup_1 _ _ _ _ Hall Hi) as [Hk Hok]. cbn in Hk, Hok.
      destruct (advance_keeps chores _ (Hok r) _ _ _ _ _ Hadv) as [Hc Hparked].
      right. destruct parked as [p'|]; inversion Hstep; subst; cbn.
      * eexists. split; [reflexivity|]. split; [|rewrite Hc; exact Hempty].
        apply Forall_insert; [exact Hall|]. split; [exact Hk|].
        apply Hparked. reflexivity.
      * eexists. split; [reflexivity|]. split; [|rewrite Hc; exact Hempty].
        apply Forall_delete. exact Hall.
Qed.

Lemma catalogInv_mounted (v : Variant) (b : B) : catalogInv (mounted v b).
Proof.
  right. exists []. unfold mounted. cbn. repeat split. constructor.
Qed.

(** X12.  The catalog is loaded once: in every state the page can reach,
    in either file, while the catalog request of the mount effect is
    unanswered the page has no chore, and once it is answered no event
    (no edit, timer, blur, submit or response) changes the catalog any
    more. *)
Theorem catalog_loaded_once (v : Variant) (b0 : B) (es : list Event) (w : World B) :
  run serve v (mounted v b0) es = Some w ->
  (catalogPending w = true -> chores (ui w) = [])
  /\ (catalogPending w = false ->
      forall e w',
        step serve v w e = Some w' ->
        chores (ui w') = chores (ui w) /\ catalogPending w' = false).
Proof.
  intros Hrun.
  assert (Hinv : catalogInv w).
  { revert Hrun. apply run_invariant.
    - apply catalogInv_mounted.
    - apply catalogInv_step. }
  split.
  - intros Hpending. destruct Hinv as [Hall|[others [_ [_ Hempty]]]];
      [|exact Hempty].
    unfold catalogPending in Hpending.
    rewrite (keepsCatalog_not_pending _ Hall) in Hpending. discriminate.
  - intros Hpending e w' Hstep.
    assert (Hall : Forall keepsCatalog (tasks w)).
    { destruct Hinv as [Hall|[others [Hw _]]]; [exact Hall|].
      unfold catalogPending in Hpending. rewrite Hw in Hpending.
      discriminate. }
    destruct (catalog_step_loaded v w e w' Hall Hstep) as [Hc Hall'].
    split; [exact Hc|]. apply keepsCatalog_not_pending. exact Hall'.
Qed.

End MoreLoop.

(* ===================================================================== *)
(** ** Submit and resolution against the store *)
(* ===================================================================== *)

Lemma preferencesMap_app_last (before after : list (Z * score)) (c : Z) (s : score) :
  ~ In c (map fst after) ->
  preferencesMap (before ++ (c, s) :: after) !! c = Some s.
Proof.
  intros Hnot. unfold preferencesMap. rewrite fold_left_app. simpl.
  rewrite fold_insert_other by exact Hnot. apply lookup_insert_eq.
Qed.

Lemma stored_score_is_loaded (tbl : list Pref.t) (row : Pref.t) :
  List.NoDup (map key tbl) -> In row tbl ->
  preferencesMap
    (map (fun r => (Pref.chore_id r, Pref.preference_score r))
         (filter (fun r => Pref.roommate_id r = Pref.roommate_id row) tbl))
  !! Pref.chore_id row = Some (Pref.preference_score row).
Proof.
  intros Hnd Hin. apply in_split in Hin. destruct Hin as [l1 [l2 ->]].
  rewrite filter_app, filter_cons_True by reflexivity.
  rewrite map_app. cbn [map]. apply preferencesMap_app_last.
  intros Hc. apply in_map_iff in Hc. destruct Hc as [[c s] [Hfst Hc]].
  apply in_map_iff in Hc. destruct Hc as [r [Hr Hrin]].
  apply list_elem_of_In, list_elem_of_filter in Hrin. destruct Hrin as [Hrid Hrin].
  rewrite map_app in Hnd. apply List.NoDup_remove_2 in Hnd. apply Hnd.
  apply in_or_app. right. apply in_map_iff. exists r.
  split; [|apply list_elem_of_In; exact Hrin].
  injection Hr as Hc Hs. cbn in Hfst. unfold key. congruence.
Qed.

Lemma Debounced_resolved_submit_result
  (sc : Schema) (store : Store) (st : Session) (rid : Z) :
  pair_indexed sc = true ->
  truthy_id (roommateId st) = Some rid ->
  List.NoDup (map Chore.id (chores st)) ->
  submit (serveStore sc) Debounced st (store, [])
  = mkCfg (setLoading false (setLoading true st))
          (mkStore (chores_tbl store) (roommates_tbl store)
                   (fold_left upsert_row (preferencesData rid st)
                              (preferences_tbl store)),
           [])
          [UpsertPreferences (preferencesData rid st) (onConflict Debounced)]
          [savedNotice].
Proof.
  intros Hidx Hid Hchores.
  pose proof (preferencesData_keys_NoDup rid st Hchores) as Hrows.
  unfold submit, handleSubmit, submitBody, getOrCreate.
  rewrite Hid. cbn. unfold upsert, onConflict. rewrite Hidx. cbn.
  unfold merge_on_pair.
  rewrite (proj2 (distinct_pairs_NoDup _) Hrows). reflexivity.
Qed.

Lemma selectValue_shown (s st : Session) (c : Z) :
  preferences s !! c = Some (selectValue st c) ->
  selectValue s c = selectValue st c.
Proof.
  intros H. unfold selectValue at 1. rewrite H. unfold selectValue. simpl.
  rewrite or_default_truthy. reflexivity.
Qed.

Lemma is_empty_false (s : string) : s <> "" -> is_empty s = false.
Proof. destruct s; [contradiction|reflexivity]. Qed.

(** X13.  Save, then load (App.js, store model): when the name resolves
    to the identity [rid], the catalog ids are distinct and the table has
    one row per pair, a submit followed by a resolution of the same name
    shows, for every chore of the catalog, the score the selector showed
    when the form was submitted. *)
Theorem Debounced_save_then_load
  (sc : Schema) (store : Store) (st : Session) (rid : Z) (stored : string) :
  pair_indexed sc = true ->
  truthy_id (roommateId st) = Some rid ->
  trim (roommateName st) <> "" ->
  filter (fun r => named (trim (roommateName st)) r = true) (roommates_tbl store)
  = [Roommate.mk rid stored] ->
  List.NoDup (map Chore.id (chores st)) ->
  List.NoDup (map key (preferences_tbl store)) ->
  let saved := submit (serveStore sc) Debounced st (store, []) in
  let loaded := settle (serveStore sc) Debounced (roommateName st)
                       (session saved) (backend saved) in
  succeeded saved
  /\ roommateId (session loaded) = Some rid
  /\ console loaded = []
  /\ (forall chore, In chore (chores st) ->
        preferences (session loaded) !! Chore.id chore
        = Some (selectValue st (Chore.id chore))
        /\ selectValue (session loaded) (Chore.id chore)
           = selectValue st (Chore.id chore)).
Proof.
  intros Hidx Hid Hname Hrow Hchores Htbl saved loaded.
  subst loaded saved.
  rewrite (Debounced_resolved_submit_result sc store st rid Hidx Hid Hchores).
  split; [left; reflexivity|].
  unfold settle, settleName. rewrite (is_empty_false _ Hname). cbn [negb].
  unfold fetchRoommateData. rewrite trim_idempotent. cbn. rewrite Hrow. cbn.
  split; [reflexivity|]. split; [reflexivity|].
  intros chore Hin.
  assert (Hload :
    preferencesMap
      (map (fun r => (Pref.chore_id r, Pref.preference_score r))
           (filter (fun r => Pref.roommate_id r = rid)
                   (fold_left upsert_row (preferencesData rid st)
                              (preferences_tbl store))))
    !! Chore.id chore = Some (selectValue st (Chore.id chore))).
  { apply (stored_score_is_loaded _
             (Pref.mk rid (Chore.id chore) (selectValue st (Chore.id chore)))).
    - apply upsert_rows_NoDup, Htbl.
    - apply upsert_rows_In; [apply preferencesData_keys_NoDup, Hchores|].
      unfold preferencesData, selectValue. apply in_map_iff.
      exists chore. split; [reflexivity|exact Hin]. }
  split; [exact Hload|]. apply selectValue_shown. exact Hload.
Qed.

#[local] Arguments upsert : simpl never.

Ltac upsert_outcome :=
  match goal with
  | |- context [upsert ?sc ?tbl ?rows ?target] =>
      destruct (upsert sc tbl rows target) as [?e|?tbl']
  end.

(** X14.  In App.js submit and resolution agree on who a name is (store
    model, any table definitions, requests that reach the backend): after
    a submit from an unresolved, non-empty name, whatever its outcome, a
    resolution of the same name ends with the resolved identity the
    submit ended with. *)
Theorem Debounced_submit_and_resolution_agree
  (sc : Schema) (store : Store) (st : Session) :
  roommateId st = None ->
  trim (roommateName st) <> "" ->
  let saved := submit (serveStore sc) Debounced st (store, []) in
  let loaded := settle (serveStore sc) Debounced (roommateName st)
                       (session saved) (backend saved) in
  roommateId (session loaded) = roommateId (session saved).
Proof.
  intros Hid Hname saved loaded. subst loaded saved.
  unfold settle, settleName. rewrite (is_empty_false _ Hname). cbn [negb].
  unfold fetchRoommateData. rewrite trim_idempotent.
  unfold submit, handleSubmit, submitBody, getOrCreate. rewrite Hid. cbn.
  destruct (filter _ (roommates_tbl store)) as [|r [|r' l]] eqn:Hf; cbn.
  - rewrite (existsb_named_filter _ _ Hf), andb_false_r. cbn.
    upsert_outcome; cbn;
      rewrite filter_app, Hf; cbn;
      (destruct (decide _) as [_|E]; [|exfalso; apply E, String.eqb_refl]);
      reflexivity.
  - upsert_outcome; cbn; rewrite Hf; reflexivity.
  - rewrite Hf. cbn. rewrite Hid. reflexivity.
Qed.

(** X15.  In page.js a name typed with blanks around it creates a
    roommate that the page cannot find again (store model, requests that
    reach the backend): the submit inserts the name as typed, the blur
    looks the trimmed name up, so when no roommate has either name the
    submit ends with the new identity and the next blur of the same field
    clears it, with the preferences. *)
Theorem OnBlur_padded_name_is_lost
  (sc : Schema) (store : Store) (st : Session) :
  roommateId st = None ->
  roommateName st <> trim (roommateName st) ->
  trim (roommateName st) <> "" ->
  existsb (named (roommateName st)) (roommates_tbl store) = false ->
  filter (fun r => named (trim (roommateName st)) r = true) (roommates_tbl store)
  = [] ->
  let saved := submit (serveStore sc) OnBlur st (store, []) in
  let loaded := settle (serveStore sc) OnBlur (roommateName st)
                       (session saved) (backend saved) in
  roommateId (session saved) = Some (fresh_id (roommates_tbl store))
  /\ roommates_tbl (backend saved).1
     = roommates_tbl store
       ++ [Roommate.mk (fresh_id (roommates_tbl store)) (roommateName st)]
  /\ roommateId (session loaded) = None
  /\ preferences (session loaded) = ∅.
Proof.
  intros Hid Hpad Hname Hfree Hnone saved loaded. subst loaded saved.
  unfold settle, settleName. rewrite (is_empty_false _ Hname). cbn [negb].
  unfold fetchRoommateData.
  unfold submit, handleSubmit, submitBody, getOrCreate. rewrite Hid. cbn.
  rewrite Hfree, andb_false_r. cbn.
  assert (Hneq : String.eqb (roommateName st) (trim (roommateName st)) = false).
  { apply String.eqb_neq. exact Hpad. }
  upsert_outcome; cbn;
    rewrite filter_app, Hnone; cbn;
    (destruct (decide _) as [E|_]; [unfold named in E; cbn in E; congruence|]);
    cbn; repeat split.
Qed.

(* ===================================================================== *)
(** ** Editing and submitting *)
(* ===================================================================== *)

Lemma trimStart_empty (s : string) : is_empty (trimStart s) = all_white s.
Proof.
  induction s as [|c s IH]; simpl; [reflexivity|].
  destruct (is_white c); simpl; [exact IH|reflexivity].
Qed.

Lemma trimEnd_nonempty (s : string) :
  match s with
  | EmptyString => True
  | String c _ => is_white c = false
  end ->
  is_empty (trimEnd s) = is_empty s.
Proof.
  destruct s as [|c s]; simpl; [reflexivity|].
  intros H. rewrite H. reflexivity.
Qed.

(** X16.  The submit control is disabled exactly when a save is pending
    or the name consists of white space only: a name with one visible
    character can be submitted, whatever surrounds it. *)
Theorem blank_name_disables_submit (s : Session) :
  submitDisabled s = loading s || all_white (roommateName s).
Proof.
  unfold submitDisabled, trim.
  rewrite (trimEnd_nonempty _ (trimStart_head (roommateName s))).
  rewrite trimStart_empty. reflexivity.
Qed.

(** X17.  Edits compose as assignments: a second edit of the same chore
    overrides the first, and edits of different chores give the same
    state in either order. *)
Theorem preference_edits_compose
  (st : Session) (c1 c2 : Z) (s1 s2 : score) :
  (c1 = c2 -> pick c2 s2 (pick c1 s1 st) = pick c2 s2 st)
  /\ (c1 <> c2 -> pick c2 s2 (pick c1 s1 st) = pick c1 s1 (pick c2 s2 st)).
Proof.
  unfold pick. cbn. unfold setPreferences. cbn. split.
  - intros ->. rewrite insert_insert_eq. reflexivity.
  - intros Hne. rewrite insert_insert_ne by congruence. reflexivity.
Qed.

Section EditAndSubmit.
Context {B : Type}.
Variable serve : B -> forall rq : Req, B * Resp (Payload rq).

(** X18.  What is picked is what is written: after the user picks a
    score from 1 to 5 for a chore of the catalog, the selector shows it
    and a submit that succeeds has sent that chore's row with exactly
    that score, for the identity the submit ended with. *)
Theorem picked_score_is_written
  (v : Variant) (st : Session) (b : B) (choreId value : Z) :
  In choreId (map Chore.id (chores st)) ->
  1 <= value <= 5 ->
  succeeded (submit serve v (pick choreId (Num value) st) b) ->
  selectValue (pick choreId (Num value) st) choreId = Num value
  /\ exists rid,
       roommateId (session (submit serve v (pick choreId (Num value) st) b))
       = Some rid
       /\ In (Pref.mk rid choreId (Num value))
             (upserted (requests (submit serve v (pick choreId (Num value) st) b))).
Proof.
  intros Hin Hrange Hok.
  assert (Hshown : or_default (preferences (pick choreId (Num value) st) !! choreId)
                   = Num value).
  { unfold pick. cbn. rewrite lookup_insert_eq. cbn.
    destruct (value =? 0) eqn:E; [apply Z.eqb_eq in E; lia|reflexivity]. }
  split; [exact Hshown|].
  destruct (submit_success_rows serve v _ b Hok) as [rid [Hrid Hrows]].
  exists rid. split; [exact Hrid|]. rewrite Hrows.
  apply in_map_iff in Hin. destruct Hin as [chore [Hc Hchore]].
  unfold preferencesData. apply in_map_iff. exists chore.
  rewrite Hc, Hshown. split; [reflexivity|exact Hchore].
Qed.

(** X19.  A submit never changes what the form holds: whatever its
    outcome, the preference map, the name and the catalog are afterwards
    as before, and the resolved identity changes only when there was
    none. *)
Theorem submit_keeps_form (v : Variant) (st : Session) (b : B) :
  preferences (session (submit serve v st b)) = preferences st
  /\ roommateName (session (submit serve v st b)) = roommateName st
  /\ chores (session (submit serve v st b)) = chores st
  /\ (roommateId (session (submit serve v st b)) = roommateId st
      \/ truthy_id (roommateId st) = None).
Proof.
  unfold submit, handleSubmit, submitBody, getOrCreate.
  destruct (truthy_id (roommateId st)) as [rid|]; [|destruct v]; walk serve.
  all: repeat (split; [reflexivity|]).
  all: first [left; reflexivity|right; reflexivity].
Qed.

End EditAndSubmit.

(** Chores 1 and 2 edited in either order, and chore 1 edited twice. *)
Lemma preference_edits_compose_witness :
  1 <> 2
  /\ pick 2 (Num 3) (pick 1 (Num 4) alexResolved)
     = pick 1 (Num 4) (pick 2 (Num 3) alexResolved)
  /\ pick 1 (Num 3) (pick 1 (Num 4) alexResolved) = pick 1 (Num 3) alexResolved.
Proof.
  assert (Hne : 1 <> 2) by lia.
  split; [exact Hne|].
  split.
  - exact (proj2 (preference_edits_compose alexResolved 1 2 (Num 4) (Num 3)) Hne).
  - exact (proj1 (preference_edits_compose alexResolved 1 1 (Num 4) (Num 3)) eq_refl).
Defined.

(** Alex picks 3 for chore 2 and submits: the row (7, 2, 3) is sent. *)
Lemma picked_score_is_written_witness :
  In 2 (map Chore.id (chores alexResolved))
  /\ 1 <= 3 <= 5
  /\ succeeded (submit (serveStore strict) Debounced
                       (pick 2 (Num 3) alexResolved) (household, []))
  /\ selectValue (pick 2 (Num 3) alexResolved) 2 = Num 3.
Proof.
  assert (H1 : In 2 (map Chore.id (chores alexResolved)))
    by (right; left; reflexivity).
  assert (H2 : 1 <= 3 <= 5) by lia.
  assert (H3 : succeeded (submit (serveStore strict) Debounced
                                 (pick 2 (Num 3) alexResolved) (household, [])))
    by (vm_compute; left; reflexivity).
  split; [exact H1|]. split; [exact H2|]. split; [exact H3|].
  exact (proj1 (picked_score_is_written
                  (serveStore strict) Debounced alexResolved (household, [])
                  2 3 H1 H2 H3)).
Defined.

(* ===================================================================== *)
(** ** Further instances *)
(* ===================================================================== *)

(** Two rows for chore 1 and one for chore 2: chore 1 reads the later
    score, chore 3 reads nothing. *)
Lemma preferencesMap_last_row_wins_witness :
  let rows := [(1, Num 2); (2, Num 3); (1, Num 5)] in
  ~ In 3 (map fst rows)
  /\ preferencesMap rows !! 3 = None
  /\ preferencesMap rows !! 1 = Some (Num 5).
Proof.
  intros rows.
  assert (Habs : ~ In 3 (map fst rows)).
  { cbn. intros [H|[H|[H|[]]]]; discriminate H. }
  split; [exact Habs|].
  split.
  - exact (proj1 (preferencesMap_last_row_wins rows 3) Habs).
  - exact (proj2 (preferencesMap_last_row_wins rows 1)
                 [(1, Num 2); (2, Num 3)] (Num 5) [] eq_refl (fun H => H)).
Defined.

(** Scenario 2: Alex is resolved, so the submit sends the upsert alone. *)
Lemma resolved_submit_sends_only_upsert_witness :
  truthy_id (roommateId alexResolved) = Some 7
  /\ requests (submit (serveStore strict) Debounced alexResolved (household, []))
     = [UpsertPreferences (preferencesData 7 alexResolved)
                          (onConflict Debounced)].
Proof.
  assert (H : truthy_id (roommateId alexResolved) = Some 7) by reflexivity.
  split; [exact H|].
  exact (proj1 (resolved_submit_sends_only_upsert
                  (serveStore strict) Debounced alexResolved (household, []) 7 H)).
Defined.

(** Scenario 1: the insert of "Alex" follows a lookup that found no row. *)
Lemma Debounced_insert_follows_empty_lookup_witness :
  In (InsertRoommate "Alex")
     (requests (submit (serveStore strict) Debounced alexTyped (emptyStore, [])))
  /\ truthy_id (roommateId alexTyped) = None.
Proof.
  assert (H : In (InsertRoommate "Alex")
                 (requests (submit (serveStore strict) Debounced alexTyped
                                   (emptyStore, []))))
    by (vm_compute; right; left; reflexivity).
  split; [exact H|].
  destruct (Debounced_insert_follows_empty_lookup
              (serveStore strict) alexTyped (emptyStore, []) "Alex" H)
    as (_ & Hid & _).
  exact Hid.
Defined.

(** A submit before the catalog has arrived writes no row. *)
Lemma empty_catalog_submit_writes_nothing_witness :
  let st := mkSession "Alex" None [] ∅ false in
  chores st = []
  /\ upserted (requests (submit (serveStore strict) Debounced st (emptyStore, [])))
     = [].
Proof.
  intros st.
  assert (H : chores st = []) by reflexivity.
  split; [exact H|].
  exact (proj1 (empty_catalog_submit_writes_nothing
                  (serveStore strict) Debounced st (emptyStore, []) H)).
Defined.

(** Three edits with one timer fired in between: one resolution started
    and one timer pending, out of at most four. *)
Lemma debounce_bounds_resolutions_witness :
  exists w : World Remote,
    run (serveStore strict) Debounced (mounted Debounced (household, []))
        [TypeName "A"; TypeName "Al"; TimerFires; TypeName "Alex"] = Some w
    /\ (resolutions w + pendingTimers w <= 1 + 3)%nat.
Proof.
  eexists. split; [vm_compute; reflexivity|].
  match goal with
  | |- (resolutions ?w + _ <= _)%nat =>
      exact (debounce_bounds_resolutions
               (serveStore strict) (household, [])
               [TypeName "A"; TypeName "Al"; TimerFires; TypeName "Alex"]
               w eq_refl)
  end.
Defined.

(** Alex is resolved already and the field is left again: one more
    lookup of "Alex" is parked. *)
Lemma OnBlur_blur_always_looks_up_witness :
  let w := mkWorld alexResolved None [] (household, []) [] 0 in
  trim (roommateName (ui w)) <> ""
  /\ exists cont,
       step (serveStore strict) OnBlur w Blur
       = Some (mkWorld alexResolved None
                 [mkTask (ResolveTask 0 "Alex")
                         (Await (SelectRoommateSingle "Alex") cont)]
                 (household, []) [] 1).
Proof.
  intros w.
  assert (H : trim (roommateName (ui w)) <> "") by (vm_compute; discriminate).
  split; [exact H|].
  exact (proj1 (OnBlur_blur_always_looks_up (serveStore strict) w) H).
Defined.

(** "Al", a timer, then "Alex": the field holds "Alex". *)
Lemma name_is_last_typed_witness :
  exists w : World Remote,
    run (serveStore strict) Debounced (mounted Debounced (household, []))
        [TypeName "Al"; TimerFires; TypeName "Alex"] = Some w
    /\ roommateName (ui w) = "Alex".
Proof.
  eexists. split; [vm_compute; reflexivity|].
  match goal with
  | |- roommateName (ui ?w) = _ =>
      exact (name_is_last_typed
               (serveStore strict) Debounced (household, [])
               [TypeName "Al"; TimerFires; TypeName "Alex"] w eq_refl)
  end.
Defined.

(** While the submit of "Alex" is in flight the button reads
    "Saving...". *)
Lemma label_shows_pending_submit_witness :
  exists w : World Remote,
    run (serveStore strict) Debounced (mounted Debounced (household, []))
        [Response 0%nat; TypeName "Alex"; ClickSubmit] = Some w
    /\ submitLabel (ui w) = "Saving...".
Proof.
  eexists. split; [vm_compute; reflexivity|].
  match goal with
  | |- submitLabel (ui ?w) = _ =>
      exact (label_shows_pending_submit
               (serveStore strict) Debounced (household, [])
               [Response 0%nat; TypeName "Alex"; ClickSubmit] w eq_refl)
  end.
Defined.

(** Typing before the catalog has arrived: the page has no chore yet. *)
Lemma catalog_loaded_once_witness :
  exists w : World Remote,
    run (serveStore strict) OnBlur (mounted OnBlur (household, []))
        [TypeName "Alex"] = Some w
    /\ catalogPending w = true
    /\ chores (ui w) = [].
Proof.
  eexists. split; [vm_compute; reflexivity|].
  match goal with
  | |- catalogPending ?w = true /\ _ =>
      assert (Hp : catalogPending w = true) by reflexivity;
      split; [exact Hp|];
      exact (proj1 (catalog_loaded_once
                      (serveStore strict) OnBlur (household, [])
                      [TypeName "Alex"] w eq_refl) Hp)
  end.
Defined.

(** Scenario 2, saved and loaded again: chore 1 shows 5 and chore 2
    shows 1. *)
Lemma Debounced_save_then_load_witness :
  let saved := submit (serveStore strict) Debounced alexResolved (household, []) in
  let loaded := settle (serveStore strict) Debounced "Alex"
                       (session saved) (backend saved) in
  pair_indexed strict = true
  /\ truthy_id (roommateId alexResolved) = Some 7
  /\ trim "Alex" <> ""
  /\ List.NoDup (map Chore.id catalog)
  /\ List.NoDup (map key (preferences_tbl household))
  /\ roommateId (session loaded) = Some 7
  /\ selectValue (session loaded) 1 = Num 5
  /\ selectValue (session loaded) 2 = Num 1.
Proof.
  intros saved loaded.
  assert (H1 : pair_indexed strict = true) by reflexivity.
  assert (H2 : truthy_id (roommateId alexResolved) = Some 7) by reflexivity.
  assert (H3 : trim (roommateName alexResolved) <> "")
    by (vm_compute; discriminate).
  assert (H4 : filter (fun r => named (trim (roommateName alexResolved)) r = true)
                      (roommates_tbl household) = [Roommate.mk 7 "Alex"])
    by reflexivity.
  assert (H5 : List.NoDup (map Chore.id (chores alexResolved))).
  { cbn. constructor; [intros [H|[]]; discriminate H|].
    constructor; [intros []|constructor]. }
  assert (H6 : List.NoDup (map key (preferences_tbl household))).
  { cbn. constructor; [intros [H|[]]; discriminate H|].
    constructor; [intros []|constructor]. }
  destruct (Debounced_save_then_load
              strict household alexResolved 7 "Alex" H1 H2 H3 H4 H5 H6)
    as (_ & Hid & _ & Hshown).
  split; [exact H1|]. split; [exact H2|]. split; [exact H3|].
  split; [exact H5|]. split; [exact H6|]. split; [exact Hid|].
  split.
  - exact (proj2 (Hshown (Chore.mk 1 "Dishes") (or_introl eq_refl))).
  - exact (proj2 (Hshown (Chore.mk 2 "Trash") (or_intror (or_introl eq_refl)))).
Defined.

(** Scenario 1, then a resolution of "Alex": both end with identity 1. *)
Lemma Debounced_submit_and_resolution_agree_witness :
  let saved := submit (serveStore strict) Debounced alexTyped (emptyStore, []) in
  let loaded := settle (serveStore strict) Debounced "Alex"
                       (session saved) (backend saved) in
  roommateId alexTyped = None
  /\ trim "Alex" <> ""
  /\ roommateId (session loaded) = roommateId (session saved).
Proof.
  intros saved loaded.
  assert (H1 : roommateId alexTyped = None) by reflexivity.
  assert (H2 : trim (roommateName alexTyped) <> "") by (vm_compute; discriminate).
  split; [exact H1|]. split; [exact H2|].
  exact (Debounced_submit_and_resolution_agree strict emptyStore alexTyped H1 H2).
Defined.

(** "Alex " with a trailing blank in page.js: created with id 1, and not
    found by the blur that follows. *)
Lemma OnBlur_padded_name_is_lost_witness :
  let st := mkSession "Alex " None catalog ∅ false in
  let saved := submit (serveStore strict) OnBlur st (emptyStore, []) in
  let loaded := settle (serveStore strict) OnBlur "Alex "
                       (session saved) (backend saved) in
  roommateName st <> trim (roommateName st)
  /\ trim (roommateName st) <> ""
  /\ roommateId (session saved) = Some 1
  /\ roommateId (session loaded) = None.
Proof.
  intros st saved loaded.
  assert (H1 : roommateId st = None) by reflexivity.
  assert (H2 : roommateName st <> trim (roommateName st))
    by (vm_compute; discriminate).
  assert (H3 : trim (roommateName st) <> "") by (vm_compute; discriminate).
  assert (H4 : existsb (named (roommateName st)) (roommates_tbl emptyStore) = false)
    by reflexivity.
  assert (H5 : filter (fun r => named (trim (roommateName st)) r = true)
                      (roommates_tbl emptyStore) = [])
    by reflexivity.
  destruct (OnBlur_padded_name_is_lost strict emptyStore st H1 H2 H3 H4 H5)
    as (Hnew & _ & Hlost & _).
  split; [exact H2|]. split; [exact H3|]. split; [exact Hnew|exact Hlost].
Defined.
